(** * check_db: a read-only inspector of editor state databases

    A shallow embedding of [scripts/check_db.py].  The script walks a fixed
    mapping of labelled SQLite files, and for each one prints a header, the
    table list, a sample of the keys of two well-known key-value tables and a
    one-line description of every other non-empty table.

    The outside world (the filesystem, the SQLite engine and the console) is
    an explicit record the script reads from; what the script does to the
    world (printing, connecting, executing a statement, closing) is recorded
    as a trace of events.  Python exceptions are the [Raise] outcome of a
    computation, whoever raises them: the engine, a method of a key, or
    [print] itself. *)

From Stdlib Require Import List String Ascii Bool Arith ZArith.
From Stdlib Require Import DecimalString.
Import ListNotations.
Local Open Scope string_scope.
Local Open Scope list_scope.

Set Implicit Arguments.

(** ** Python strings

    [str] values are byte strings here (UTF-8), and [lower] maps the ASCII
    capital letters to the small ones.  [str.lower()] also lowers letters
    outside ASCII; the script only ever searches the lowered key for ASCII
    needles and prints the key itself, never its lowered form. *)

Definition lower_char (c : ascii) : ascii :=
  let n := nat_of_ascii c in
  if ((65 <=? n)%nat && (n <=? 90)%nat)%bool then ascii_of_nat (n + 32) else c.

Fixpoint lower (s : string) : string :=
  match s with
  | EmptyString => EmptyString
  | String c s' => String (lower_char c) (lower s')
  end.

(** [starts_with needle hay]: [hay.startswith(needle)]. *)
Fixpoint starts_with (needle hay : string) : bool :=
  match needle, hay with
  | EmptyString, _ => true
  | String _ _, EmptyString => false
  | String a n', String b h' => Ascii.eqb a b && starts_with n' h'
  end.

(** [contains needle hay]: the Python expression [needle in hay] on strings. *)
Fixpoint contains (needle hay : string) : bool :=
  starts_with needle hay ||
  match hay with
  | EmptyString => false
  | String _ h' => contains needle h'
  end.

(** The mathematical reading of "occurs anywhere in". *)
Definition occurs_in (needle hay : string) : Prop :=
  exists pre post, hay = (pre ++ needle ++ post)%string.

(** ** Values, exceptions and results *)

(** What [sqlite3] hands back for one column of one row. *)
Inductive SqlValue :=
| VNull
| VInt (z : Z)
| VReal (binary64 : Z)
| VText (s : string)
| VBlob (b : list Byte.byte).

(** The outcome of a Python expression: a value, or an exception, of which
    only [str(e)] is ever observed by the script.  The exceptions here are
    those the calls of the script raise ([sqlite3.Error], [AttributeError],
    [TypeError]), all of them instances of [Exception]. *)
Inductive Result (A : Type) :=
| Ok (a : A)
| Raise (e : string).
Arguments Ok {A} a.
Arguments Raise {A} e.

Definition is_ok {A} (r : Result A) : bool :=
  match r with Ok _ => true | Raise _ => false end.

(** [a or b] on possibly raising operands, left to right, short-circuit. *)
Definition py_or (a b : Result bool) : Result bool :=
  match a with
  | Ok true => Ok true
  | Ok false => b
  | Raise e => Raise e
  end.

(** [[x for x in xs if p(x)]] where [p] may raise. *)
Fixpoint comprehension_if {A} (p : A -> Result bool) (xs : list A)
  : Result (list A) :=
  match xs with
  | [] => Ok []
  | x :: xs' =>
      match p x with
      | Raise e => Raise e
      | Ok b =>
          match comprehension_if p xs' with
          | Raise e => Raise e
          | Ok ys => Ok (if b then x :: ys else ys)
          end
      end
  end.

(** [needle in k.lower()] for a key as read from the database.  Only [str]
    has a [lower] returning a [str]; [bytes.lower()] succeeds but a [str]
    needle cannot be searched in it. *)
Definition in_lower (needle : string) (k : SqlValue) : Result bool :=
  match k with
  | VText s => Ok (contains needle (lower s))
  | VBlob _ => Raise "a bytes-like object is required, not 'str'"
  | VNull => Raise "'NoneType' object has no attribute 'lower'"
  | VInt _ => Raise "'int' object has no attribute 'lower'"
  | VReal _ => Raise "'float' object has no attribute 'lower'"
  end.

(** The condition of the [chat_keys] comprehension of the ItemTable block. *)
Definition item_table_chat (k : SqlValue) : Result bool :=
  py_or (in_lower "chat" k)
    (py_or (in_lower "composer" k)
       (py_or (in_lower "aichat" k) (in_lower "bubble" k))).

(** The condition of the [chat_keys] comprehension of the cursorDiskKV block. *)
Definition cursor_disk_kv_chat (k : SqlValue) : Result bool :=
  py_or (in_lower "composer" k)
    (py_or (in_lower "bubble" k) (in_lower "chat" k)).

(** ** The outside world *)

(** A row of the schema catalogue [sqlite_master]. *)
Record MasterRow := {
  m_type : string;
  m_name : string;
  m_tbl_name : string;
  m_rootpage : Z;
  m_sql : SqlValue
}.

(** A row of [PRAGMA table_info]: one per column the pragma reports, in
    schema order. *)
Record ColumnInfo := {
  col_cid : Z;
  col_name : string;
  col_type : string;
  col_notnull : Z;
  col_dflt_value : SqlValue;
  col_pk : Z
}.

Definition Row := list SqlValue.

(** What the engine makes of the two statements of the scan when the table
    name contains a closing bracket.  The name is pasted between [[] and
    []], and a bracketed identifier ends at its first []], so the rest of
    the name is read as SQL.  The two texts then never both parse: what
    follows the first []] must start with [)] for the [PRAGMA] text, and
    no [SELECT COUNT] text can continue with [)].  So either the count
    raises (its text does not parse, names no table, or yields nothing that
    compares with 0), or it answers, with the count of whatever the text
    then designates, and the pragma raises. *)
Inductive BracketAnswers :=
| CountRaises (e : string)
| TableInfoRaises (count : nat) (e : string).

(** An opened database, as the engine presents it to the statements of the
    script.  Each field is what the engine scans for that statement, or the
    exception it raises instead (not a database, locked, no such table, no
    such column, ...); the clauses written in the statement itself
    ([WHERE], [LIMIT], [COUNT]) are applied by the script's model below. *)
Record Database := {
  (* the rows of the schema catalogue, in the order the engine yields them *)
  sqlite_master : Result (list MasterRow);
  (* the [key] column of a table, one value per row, in the engine's order *)
  key_column : string -> Result (list SqlValue);
  (* the rows of a table *)
  table_rows : string -> Result (list Row);
  (* what [PRAGMA table_info] reports for a table *)
  table_info : string -> Result (list ColumnInfo);
  (* the answers to the count and pragma texts built from a name that
     contains a closing bracket *)
  bracket_texts : string -> BracketAnswers
}.

(** ** What the script prints

    One constructor per [print] call of the script, carrying the values the
    f-string interpolates. *)
Inductive Line :=
| Header (name path : string)
| FileNotFound
| Tables (tables : list string)
| Keys (table : string) (len_keys : nat) (shown : list SqlValue)
| ChatKeys (chat_keys : list SqlValue)
| TableLine (table : string) (count : nat) (cols : list string)
| Error (e : string).

(** The world of a run: the filesystem, the engine and the console.
    [print_raises l] is the message of the exception [print] raises when
    standard output cannot take the text of [l] (a [UnicodeEncodeError] on a
    console whose encoding lacks a character of the text), if it does. *)
Record World := {
  path_exists : string -> bool;
  sqlite3_connect : string -> Result Database;
  print_raises : Line -> option string
}.

Section Rendering.
(** Python's [repr] of a database value, a builtin outside the script. *)
Variable repr : SqlValue -> string.

Definition str_nat (n : nat) : string :=
  NilZero.string_of_uint (Nat.to_uint n).

Fixpoint join (sep : string) (xs : list string) : string :=
  match xs with
  | [] => ""
  | [x] => x
  | x :: xs' => (x ++ sep ++ join sep xs')%string
  end.

Definition repr_list (xs : list SqlValue) : string :=
  ("[" ++ join ", " (map repr xs) ++ "]")%string.

Definition newline : string := String (ascii_of_nat 10) "".

(** The text each [print] call sends to standard output (without the
    newline [print] appends). *)
Definition render (l : Line) : string :=
  match l with
  | Header name path =>
      (newline ++ "=== " ++ name ++ " (" ++ path ++ ") ===")%string
  | FileNotFound => "  FILE NOT FOUND"
  | Tables tables =>
      ("  Tables: " ++ repr_list (map VText tables))%string
  | Keys table n shown =>
      ("  " ++ table ++ " keys (" ++ str_nat n ++ "): "
         ++ repr_list shown)%string
  | ChatKeys chat_keys =>
      ("  Chat-related keys: " ++ repr_list chat_keys)%string
  | TableLine table count cols =>
      ("  Table [" ++ table ++ "]: " ++ str_nat count ++ " rows, cols="
         ++ repr_list (map VText cols))%string
  | Error e => ("  ERROR: " ++ e)%string
  end.
End Rendering.

(** ** Effects

    A computation yields the events it caused, in order, and its outcome.
    The events of a computation that raises are kept: what was printed before
    an exception stays printed. *)
Inductive Event :=
| Print (l : Line)
| Connect (uri : string) (opened : bool)
| Execute (uri sql : string)
| Close (uri : string).

Definition Trace := list Event.

Definition Proc (A : Type) : Type := (Trace * Result A)%type.

Definition trace {A} (m : Proc A) : Trace := fst m.
Definition outcome {A} (m : Proc A) : Result A := snd m.

Definition ret {A} (a : A) : Proc A := ([], Ok a).

Definition bind {A B} (m : Proc A) (f : A -> Proc B) : Proc B :=
  match m with
  | (t, Ok a) => let (t', r) := f a in (t ++ t', r)
  | (t, Raise e) => (t, Raise e)
  end.

Notation "x <- m ;; k" := (bind m (fun x => k))
  (at level 61, m at next level, right associativity).
Notation "m ;; k" := (bind m (fun _ => k))
  (at level 61, right associativity).

(** [try: m except Exception as e: h e] *)
Definition try_except {A} (m : Proc A) (h : string -> Proc A) : Proc A :=
  match m with
  | (t, Ok a) => (t, Ok a)
  | (t, Raise e) => let (t', r) := h e in (t ++ t', r)
  end.

(** [for x in xs: body x] *)
Fixpoint for_each {A} (xs : list A) (body : A -> Proc unit) : Proc unit :=
  match xs with
  | [] => ret tt
  | x :: xs' => body x ;; for_each xs' body
  end.

Definition lift {A} (r : Result A) : Proc A := ([], r).

(** The lines that carry text read from a database or from an exception.
    The header and the missing-file line carry only the text of the script
    and of its own mapping, which is ASCII and which every console takes. *)
Definition carries_data (l : Line) : bool :=
  match l with
  | Header _ _ | FileNotFound => false
  | Tables _ | Keys _ _ _ | ChatKeys _ | TableLine _ _ _ | Error _ => true
  end.

(** [print(...)]: the line reaches standard output, or, when the console
    cannot take its text, nothing is written and the call raises. *)
Definition print (w : World) (l : Line) : Proc unit :=
  match (if carries_data l then print_raises w l else None) with
  | None => ([Print l], Ok tt)
  | Some e => ([], Raise e)
  end.

(** The standard output of a trace: the printed lines, in order. *)
Fixpoint stdout (t : Trace) : list Line :=
  match t with
  | [] => []
  | Print l :: t' => l :: stdout t'
  | _ :: t' => stdout t'
  end.

(** The lines that can follow the table list of a candidate. *)
Definition detail_line (l : Line) : bool :=
  match l with
  | Keys _ _ _ | ChatKeys _ | TableLine _ _ _ | Error _ => true
  | Header _ _ | FileNotFound | Tables _ => false
  end.

(** The connections a trace leaves open: opened by a successful [Connect]
    and not closed since.  [held] are those open before the trace. *)
Fixpoint open_after (held : list string) (t : Trace) : list string :=
  match t with
  | [] => held
  | Connect uri true :: t' => open_after (uri :: held) t'
  | Close uri :: t' => open_after (remove string_dec uri held) t'
  | _ :: t' => open_after held t'
  end.

(** The connections a trace closed, in order. *)
Fixpoint closes (t : Trace) : list string :=
  match t with
  | [] => []
  | Close uri :: t' => uri :: closes t'
  | _ :: t' => closes t'
  end.

(** The connection attempts of a trace, in order. *)
Fixpoint connects (t : Trace) : list string :=
  match t with
  | [] => []
  | Connect uri _ :: t' => uri :: connects t'
  | _ :: t' => connects t'
  end.

(** The statements a trace executed, in order. *)
Fixpoint executed (t : Trace) : list string :=
  match t with
  | [] => []
  | Execute _ sql :: t' => sql :: executed t'
  | _ :: t' => executed t'
  end.

(** ** The connection *)

Record Connection := {
  conn_uri : string;
  conn_db : Database
}.

(** [sqlite3.connect(uri, uri=True)] *)
Definition connect (w : World) (uri : string) : Proc Connection :=
  ([Connect uri (is_ok (sqlite3_connect w uri))],
   match sqlite3_connect w uri with
   | Ok db => Ok {| conn_uri := uri; conn_db := db |}
   | Raise e => Raise e
   end).

(** [c.execute(sql)], read to the end; [answer] is what the engine yields. *)
Definition execute {A} (c : Connection) (sql : string) (answer : Result A)
  : Proc A :=
  ([Execute (conn_uri c) sql], answer).

(** [c.close()] *)
Definition close (c : Connection) : Proc unit := ([Close (conn_uri c)], Ok tt).

Definition result_map {A B} (f : A -> B) (r : Result A) : Result B :=
  match r with
  | Ok a => Ok (f a)
  | Raise e => Raise e
  end.

(** [SELECT name ... WHERE type='table'] over the rows of the catalogue. *)
Definition table_names (catalogue : list MasterRow) : list string :=
  map m_name (filter (fun r => m_type r =? "table")%string catalogue).

(** [[r[0] for r in c.execute("SELECT name FROM sqlite_master WHERE type='table'")]] *)
Definition select_table_names (c : Connection) : Proc (list string) :=
  execute c "SELECT name FROM sqlite_master WHERE type='table'"
    (result_map table_names (sqlite_master (conn_db c))).

(** [[r[0] for r in c.execute("SELECT key FROM <table> LIMIT 30")]] *)
Definition select_keys (c : Connection) (table : string)
  : Proc (list SqlValue) :=
  execute c ("SELECT key FROM " ++ table ++ " LIMIT 30")%string
    (result_map (firstn 30) (key_column (conn_db c) table)).

(** A name that [[<name>]] quotes as it is: it holds no closing bracket. *)
Definition quotable (table : string) : bool := negb (contains "]" table).

(** The answer of the engine to [SELECT COUNT( * ) FROM [<table>]]: the
    number of rows of the table when its name is quotable. *)
Definition count_answer (db : Database) (table : string) : Result nat :=
  if quotable table then result_map (@List.length Row) (table_rows db table)
  else match bracket_texts db table with
       | CountRaises e => Raise e
       | TableInfoRaises count _ => Ok count
       end.

(** The names in the answer of the engine to [PRAGMA table_info([<table>])]:
    those of the columns the pragma reports for the table when its name is
    quotable. *)
Definition columns_answer (db : Database) (table : string)
  : Result (list string) :=
  if quotable table then result_map (map col_name) (table_info db table)
  else match bracket_texts db table with
       | CountRaises e => Raise e
       | TableInfoRaises _ e => Raise e
       end.

(** [c.execute(f"SELECT COUNT( * ) FROM [{table}]").fetchone()[0]] *)
Definition select_count (c : Connection) (table : string) : Proc nat :=
  execute c ("SELECT COUNT(*) FROM [" ++ table ++ "]")%string
    (count_answer (conn_db c) table).

(** [[d[1] for d in c.execute(f"PRAGMA table_info([{table}])")]] *)
Definition select_columns (c : Connection) (table : string)
  : Proc (list string) :=
  execute c ("PRAGMA table_info([" ++ table ++ "])")%string
    (columns_answer (conn_db c) table).

(** [x in xs] on strings. *)
Definition str_in (x : string) (xs : list string) : bool :=
  existsb (String.eqb x) xs.

(** ** The script *)

Definition dbs : list (string * string) :=
  [ ("Trae CN",
     "C:\Users\Administrator\AppData\Roaming\Trae CN\User\globalStorage\state.vscdb");
    ("Trae",
     "C:\Users\Administrator\AppData\Roaming\Trae\User\globalStorage\state.vscdb");
    ("Windsurf",
     "C:\Users\Administrator\AppData\Roaming\Windsurf\User\globalStorage\state.vscdb") ].

(** The body of [if "ItemTable" in tables:]. *)
Definition item_table_block (w : World) (c : Connection) : Proc unit :=
  keys <- select_keys c "ItemTable" ;;
  print w (Keys "ItemTable" (List.length keys) (firstn 15 keys)) ;;
  chat_keys <- lift (comprehension_if item_table_chat keys) ;;
  match chat_keys with
  | [] => ret tt
  | _ :: _ => print w (ChatKeys chat_keys)
  end.

(** The body of [if "cursorDiskKV" in tables:]. *)
Definition cursor_disk_kv_block (w : World) (c : Connection) : Proc unit :=
  keys <- select_keys c "cursorDiskKV" ;;
  print w (Keys "cursorDiskKV" (List.length keys) (firstn 15 keys)) ;;
  chat_keys <- lift (comprehension_if cursor_disk_kv_chat keys) ;;
  match chat_keys with
  | [] => ret tt
  | _ :: _ => print w (ChatKeys chat_keys)
  end.

(** The inner [try: ... except: pass] around one generic table. *)
Definition describe_table (w : World) (c : Connection) (table : string)
  : Proc unit :=
  try_except
    (count <- select_count c table ;;
     if (0 <? count)%nat then
       cols <- select_columns c table ;;
       print w (TableLine table count cols)
     else ret tt)
    (fun _ => ret tt).

(** The body of [for table in tables:]. *)
Definition scan_table (w : World) (c : Connection) (table : string)
  : Proc unit :=
  if negb (str_in table ["ItemTable"; "cursorDiskKV"])
  then describe_table w c table
  else ret tt.

(** [f"file:{path}?mode=ro"] *)
Definition uri_of (path : string) : string :=
  ("file:" ++ path ++ "?mode=ro")%string.

(** The body of the outer [try:]. *)
Definition inspect (w : World) (path : string) : Proc unit :=
  c <- connect w (uri_of path) ;;
  tables <- select_table_names c ;;
  print w (Tables tables) ;;
  (if str_in "ItemTable" tables then item_table_block w c else ret tt) ;;
  (if str_in "cursorDiskKV" tables then cursor_disk_kv_block w c else ret tt) ;;
  for_each tables (scan_table w c) ;;
  close c.

(** The body of [for name, path in dbs.items():]. *)
Definition candidate (w : World) (np : string * string) : Proc unit :=
  let (name, path) := np in
  print w (Header name path) ;;
  if negb (path_exists w path) then
    print w FileNotFound
  else
    try_except (inspect w path) (fun e => print w (Error e)).

(** The loop over any list of candidates, and the script itself. *)
Definition check_candidates (w : World) (cands : list (string * string))
  : Proc unit :=
  for_each cands (candidate w).

Definition check_db (w : World) : Proc unit := check_candidates w dbs.

(** ** The chat filter as the specification words it *)

Definition chat_needles : list string := ["chat"; "composer"; "aichat"; "bubble"].

(** A key is chat-like when one of the needles occurs in its lowered form. *)
Definition spec_chat_like (key : string) : Prop :=
  exists needle, In needle chat_needles /\ occurs_in needle (lower key).

(** ** Readings of a report *)

(** The candidates named by the header lines of a report, in order. *)
Fixpoint headers (ls : list Line) : list (string * string) :=
  match ls with
  | [] => []
  | Header name path :: ls' => (name, path) :: headers ls'
  | _ :: ls' => headers ls'
  end.

(** The generic-table lines of a report, in order. *)
Fixpoint table_lines (ls : list Line) : list Line :=
  match ls with
  | [] => []
  | TableLine table count cols :: ls' =>
      TableLine table count cols :: table_lines ls'
  | _ :: ls' => table_lines ls'
  end.

(** The texts of the statements the script can build. *)
Definition statement_template (sql : string) : Prop :=
  sql = "SELECT name FROM sqlite_master WHERE type='table'" \/
  sql = "SELECT key FROM ItemTable LIMIT 30" \/
  sql = "SELECT key FROM cursorDiskKV LIMIT 30" \/
  exists table,
    str_in table ["ItemTable"; "cursorDiskKV"] = false /\
    (sql = ("SELECT COUNT(*) FROM [" ++ table ++ "]")%string \/
     sql = ("PRAGMA table_info([" ++ table ++ "])")%string).

(** An event that concerns the connection [uri] only, and whose statement,
    if it is one, is built from a template. *)
Definition event_of (uri : string) (ev : Event) : Prop :=
  match ev with
  | Print _ => True
  | Connect u _ => u = uri
  | Execute u sql => u = uri /\ statement_template sql
  | Close u => u = uri
  end.

(** A key that is a [str]. *)
Definition is_text (k : SqlValue) : bool :=
  match k with VText _ => true | _ => false end.

(** The verdict of the chat filter on a text key. *)
Definition chat_like (s : string) : bool :=
  contains "chat" (lower s) || contains "composer" (lower s)
  || contains "aichat" (lower s) || contains "bubble" (lower s).

(** The flagged keys of a sample, in order. *)
Definition flagged (keys : list SqlValue) : list SqlValue :=
  filter (fun k => match k with VText s => chat_like s | _ => false end) keys.

(** The key line of a key-value table whose key column holds [rows]. *)
Definition key_line (table : string) (rows : list SqlValue) : Line :=
  Keys table (Nat.min 30 (List.length rows)) (firstn 15 rows).

(** What it takes for the block of a key-value table whose key query
    answered [rows] to run to its end: the key line prints, the sampled
    keys are all text, and the chat line, if there is one, prints. *)
Definition block_completes (w : World) (table : string)
  (rows : list SqlValue) : Prop :=
  print_raises w (key_line table rows) = None /\
  forallb is_text (firstn 30 rows) = true /\
  (flagged (firstn 30 rows) = [] \/
   print_raises w (ChatKeys (flagged (firstn 30 rows))) = None).

(** The lines owed to a key-value table whose block runs to its end: none
    when the table is not listed; else the key line, followed by the
    flagged keys of the sample when there are some. *)
Definition key_report (db : Database) (tables : list string)
  (table : string) : list Line :=
  if str_in table tables then
    match key_column db table with
    | Ok rows =>
        key_line table rows ::
        match flagged (firstn 30 rows) with
        | [] => []
        | (_ :: _) as chat_keys => [ChatKeys chat_keys]
        end
    | Raise _ => []
    end
  else [].

(** What it takes for the scan of the generic tables to be reached once
    the table list is printed: each key-value block that is run completes. *)
Definition scan_reached (w : World) (db : Database) (tables : list string)
  : Prop :=
  (str_in "ItemTable" tables = false \/
   exists rows,
     key_column db "ItemTable" = Ok rows /\
     block_completes w "ItemTable" rows) /\
  (str_in "cursorDiskKV" tables = false \/
   exists rows,
     key_column db "cursorDiskKV" = Ok rows /\
     block_completes w "cursorDiskKV" rows).

(** The line the scan owes a listed table, if any: one line for a table that
    is not a key-value table, whose name is quotable, that has at least one
    row, whose columns the pragma reports, and whose line prints. *)
Definition table_report (w : World) (db : Database) (table : string)
  : list Line :=
  if str_in table ["ItemTable"; "cursorDiskKV"] then []
  else if quotable table then
    match table_rows db table, table_info db table with
    | Ok ((_ :: _) as rows), Ok infos =>
        let line := TableLine table (List.length rows) (map col_name infos) in
        match print_raises w line with
        | None => [line]
        | Some _ => []
        end
    | _, _ => []
    end
  else [].

(** A candidate ends the run when its file exists, its [try] body raises
    and the error line of that exception cannot be printed. *)
Definition ends_the_run (w : World) (path : string) : bool :=
  path_exists w path &&
  match outcome (inspect w path) with
  | Ok _ => false
  | Raise e =>
      match print_raises w (Error e) with
      | None => false
      | Some _ => true
      end
  end.

(** The candidates a run gets to: those of the mapping, in order, up to and
    including the first one that ends the run. *)
Fixpoint processed (w : World) (cands : list (string * string))
  : list (string * string) :=
  match cands with
  | [] => []
  | (name, path) :: rest =>
      (name, path) :: if ends_the_run w path then [] else processed w rest
  end.

(** The number of characters of a UTF-8 text: its bytes that do not
    continue a character. *)
Definition continuation_byte (c : ascii) : bool :=
  let n := nat_of_ascii c in ((128 <=? n)%nat && (n <? 192)%nat)%bool.

Fixpoint characters (s : string) : nat :=
  match s with
  | EmptyString => 0
  | String c s' => (if continuation_byte c then 0 else 1) + characters s'
  end.

(** ** The common shape of the two key-value blocks *)

(** The two blocks differ by the table they read and by the condition of
    their comprehension; this is what they have in common. *)
Definition key_value_block (w : World) (c : Connection) (table : string)
  (condition : SqlValue -> Result bool) : Proc unit :=
  keys <- select_keys c table ;;
  print w (Keys table (List.length keys) (firstn 15 keys)) ;;
  chat_keys <- lift (comprehension_if condition keys) ;;
  match chat_keys with
  | [] => ret tt
  | _ :: _ => print w (ChatKeys chat_keys)
  end.

(** Checks the events of an explicit trace, one by one. *)
Ltac events_of H :=
  repeat first
    [ apply Forall_nil
    | apply Forall_cons; [first [exact H | exact I | reflexivity] |] ].

(** ** Sample databases and worlds *)

Module Examples.

Definition master (type name : string) : MasterRow :=
  {| m_type := type; m_name := name; m_tbl_name := name;
     m_rootpage := 2%Z; m_sql := VNull |}.

Definition column (cid : Z) (name type : string) : ColumnInfo :=
  {| col_cid := cid; col_name := name; col_type := type;
     col_notnull := 0%Z; col_dflt_value := VNull; col_pk := 0%Z |}.

(** The answer of a database that lists no name with a closing bracket
    to the texts built from such a name: the script never builds them. *)
Definition unparsable (table : string) : BracketAnswers :=
  CountRaises ("no such table: " ++ table)%string.

(** A state database with both key-value tables, an index, a non-empty
    table [zeta] and an empty table [alpha], in that catalogue order. *)
Definition populated : Database :=
  {| sqlite_master :=
       Ok [master "table" "ItemTable";
           master "index" "sqlite_autoindex_ItemTable_1";
           master "table" "zeta";
           master "table" "alpha";
           master "table" "cursorDiskKV"];
     key_column := fun t =>
       if (t =? "ItemTable")%string then
         Ok [VText "MyChatSession"; VText "settings";
             VText "workbench.panel.aichat"]
       else if (t =? "cursorDiskKV")%string then
         Ok [VText "composerData:1"; VText "theme"]
       else Raise ("no such table: " ++ t)%string;
     table_rows := fun t =>
       if (t =? "zeta")%string then
         Ok [[VInt 1; VText "x"]; [VInt 2; VText "y"]]
       else if (t =? "alpha")%string then Ok []
       else Raise ("no such table: " ++ t)%string;
     table_info := fun t =>
       if (t =? "zeta")%string then
         Ok [column 0 "id" "INTEGER"; column 1 "label" "TEXT"]
       else Ok [];
     bracket_texts := unparsable |}.

(** A file that is not a database: [connect] succeeds, every statement
    raises. *)
Definition not_a_database : Database :=
  {| sqlite_master := Raise "file is not a database";
     key_column := fun _ => Raise "file is not a database";
     table_rows := fun _ => Raise "file is not a database";
     table_info := fun _ => Raise "file is not a database";
     bracket_texts := fun _ => CountRaises "file is not a database" |}.

(** [populated], with an ItemTable that has no [key] column. *)
Definition item_unreadable : Database :=
  {| sqlite_master := sqlite_master populated;
     key_column := fun t =>
       if (t =? "ItemTable")%string then Raise "no such column: key"
       else key_column populated t;
     table_rows := table_rows populated;
     table_info := table_info populated;
     bracket_texts := unparsable |}.

(** [populated], with a cursorDiskKV that has no [key] column. *)
Definition cursor_unreadable : Database :=
  {| sqlite_master := sqlite_master populated;
     key_column := fun t =>
       if (t =? "cursorDiskKV")%string then Raise "no such column: key"
       else key_column populated t;
     table_rows := table_rows populated;
     table_info := table_info populated;
     bracket_texts := unparsable |}.



(** A database whose ItemTable holds forty rows. *)
Definition forty_keys : Database :=
  {| sqlite_master := Ok [master "table" "ItemTable"];
     key_column := fun _ => Ok (repeat (VText "chat.history") 40);
     table_rows := fun _ => Ok [];
     table_info := fun _ => Ok [];
     bracket_texts := unparsable |}.

(** No configured file exists. *)
Definition nothing_installed : World :=
  {| path_exists := fun _ => false;
     sqlite3_connect := fun _ => Raise "unable to open database file";
     print_raises := fun _ => None |}.

(** Every configured file exists and holds [db]; the console takes every
    text. *)
Definition all_hold (db : Database) : World :=
  {| path_exists := fun _ => true;
     sqlite3_connect := fun _ => Ok db;
     print_raises := fun _ => None |}.

(** The file of the first candidate cannot be opened, the others hold
    [populated]. *)
Definition first_unopenable : World :=
  {| path_exists := fun _ => true;
     sqlite3_connect := fun uri =>
       if (uri =? uri_of (snd (nth 0 dbs ("", ""))))%string
       then Raise "unable to open database file"
       else Ok populated;
     print_raises := fun _ => None |}.

(** The file of the first candidate is not a database, the others hold
    [populated]. *)
Definition first_corrupt : World :=
  {| path_exists := fun _ => true;
     sqlite3_connect := fun uri =>
       if (uri =? uri_of (snd (nth 0 dbs ("", ""))))%string
       then Ok not_a_database
       else Ok populated;
     print_raises := fun _ => None |}.

Definition trae_cn : string * string := nth 0 dbs ("", "").


End Examples.

Module Samples.

(** A database with two tables and no row. *)
Definition empty_tables : Database :=
  {| sqlite_master := Ok [Examples.master "table" "alpha";
                          Examples.master "table" "beta"];
     key_column := fun t => Raise ("no such table: " ++ t)%string;
     table_rows := fun _ => Ok [];
     table_info := fun _ => Ok [Examples.column 0 "id" "INTEGER"];
     bracket_texts := Examples.unparsable |}.

(** An ItemTable whose second key is NULL. *)
Definition null_key : Database :=
  {| sqlite_master := Ok [Examples.master "table" "ItemTable"];
     key_column := fun _ => Ok [VText "chat.a"; VNull; VText "chat.b"];
     table_rows := fun _ => Ok [];
     table_info := fun _ => Ok [];
     bracket_texts := Examples.unparsable |}.

(** An ItemTable of thirty-one rows whose only key that is not a [str] is
    the last one, beyond the sample. *)
Definition late_null_key : Database :=
  {| sqlite_master := Ok [Examples.master "table" "ItemTable"];
     key_column := fun _ => Ok (repeat (VText "settings") 30 ++ [VNull]);
     table_rows := fun _ => Ok [];
     table_info := fun _ => Ok [];
     bracket_texts := Examples.unparsable |}.

(** Both key-value tables; the only key of ItemTable is NULL, the keys of
    cursorDiskKV are text. *)
Definition null_key_first : Database :=
  {| sqlite_master := Ok [Examples.master "table" "ItemTable";
                          Examples.master "table" "cursorDiskKV"];
     key_column := fun t =>
       if (t =? "ItemTable")%string then Ok [VNull]
       else Ok [VText "composerData:1"; VText "theme"];
     table_rows := fun _ => Ok [];
     table_info := fun _ => Ok [];
     bracket_texts := Examples.unparsable |}.

(** A double quote. *)
Definition dquote : string := String (ascii_of_nat 34) "".

(** An empty table [alpha], a table [zeta] of two rows, and a table of one
    row whose name holds a closing bracket.  The count text built from that
    name, [SELECT COUNT( * ) FROM [alpha], [zeta]], counts the pairs of a
    row of [alpha] and a row of [zeta]: none.  The pragma text built from
    it does not parse. *)
Definition bracket_name : Database :=
  {| sqlite_master := Ok [Examples.master "table" "alpha";
                          Examples.master "table" "zeta";
                          Examples.master "table" "alpha], [zeta"];
     key_column := fun t => Raise ("no such table: " ++ t)%string;
     table_rows := fun t =>
       if (t =? "alpha")%string then Ok []
       else if (t =? "zeta")%string then Ok [[VInt 1]; [VInt 2]]
       else Ok [[VInt 7]];
     table_info := fun _ => Ok [Examples.column 0 "id" "INTEGER"];
     bracket_texts := fun _ =>
       TableInfoRaises 0
         ("near " ++ dquote ++ "," ++ dquote ++ ": syntax error")%string |}.

(** Only the file of the second configured candidate exists. *)
Definition only_second : World :=
  {| path_exists := fun p => (p =? snd (nth 1 dbs ("", "")))%string;
     sqlite3_connect := fun _ => Ok Examples.populated;
     print_raises := fun _ => None |}.

(** A text that holds only ASCII. *)
Definition is_ascii (s : string) : bool :=
  forallb (fun c => (nat_of_ascii c <? 128)%nat) (list_ascii_of_string s).

(** Python's [repr] on the values the samples print: [None], and text that
    holds no quote, backslash or control character. *)
Definition repr (v : SqlValue) : string :=
  match v with
  | VText s => ("'" ++ s ++ "'")%string
  | _ => "None"
  end.

(** The position of the first character of a text that is not ASCII. *)
Fixpoint ascii_prefix (s : string) : nat :=
  match s with
  | EmptyString => 0
  | String c s' =>
      if (nat_of_ascii c <? 128)%nat then S (ascii_prefix s') else 0
  end.

(** A console that takes ASCII only, as with [PYTHONIOENCODING=ascii]: the
    print of a text that holds another character raises a
    [UnicodeEncodeError] that names the character and its position.  The
    only such character in the samples is e-acute. *)
Definition ascii_console (l : Line) : option string :=
  let text := render repr l in
  if is_ascii text then None
  else Some ("'ascii' codec can't encode character '\xe9' in position "
               ++ str_nat (ascii_prefix text)
               ++ ": ordinal not in range(128)")%string.

(** Every configured file exists and holds [db]; the console takes ASCII
    only. *)
Definition on_ascii_console (db : Database) : World :=
  {| path_exists := fun _ => true;
     sqlite3_connect := fun _ => Ok db;
     print_raises := ascii_console |}.

(** "caf" followed by the two UTF-8 bytes of e-acute. *)
Definition cafe : string :=
  ("caf" ++ String (ascii_of_nat 195) (String (ascii_of_nat 169) ""))%string.

(** An ItemTable that is a virtual table: the catalogue lists it with type
    "table", and every statement that reads it raises, because the module
    that implements it, whose name is not ASCII, is not loaded. *)
Definition missing_module : Database :=
  {| sqlite_master := Ok [Examples.master "table" "ItemTable"];
     key_column := fun _ => Raise ("no such module: " ++ cafe)%string;
     table_rows := fun _ => Raise ("no such module: " ++ cafe)%string;
     table_info := fun _ => Raise ("no such module: " ++ cafe)%string;
     bracket_texts := Examples.unparsable |}.

(** A database whose only table has a name that is not ASCII. *)
Definition accented_table : Database :=
  {| sqlite_master := Ok [Examples.master "table" cafe];
     key_column := fun t => Raise ("no such table: " ++ t)%string;
     table_rows := fun _ => Ok [[VInt 1]];
     table_info := fun _ => Ok [Examples.column 0 "id" "INTEGER"];
     bracket_texts := Examples.unparsable |}.

End Samples.

(** * Properties *)

(** ** Substring search *)

Section Substrings.

Lemma append_assoc (a b c : string) :
  ((a ++ b) ++ c)%string = (a ++ b ++ c)%string.
Proof.
  induction a as [|x a IH]; simpl; [reflexivity | now rewrite IH].
Qed.

Lemma starts_with_spec (needle hay : string) :
  starts_with needle hay = true <->
  exists post, hay = (needle ++ post)%string.
Proof.
  revert hay; induction needle as [|a n IH]; intros hay.
  - simpl. split; [intros _; now exists hay | reflexivity].
  - destruct hay as [|b h]; simpl.
    + split; [discriminate | intros [post H]; discriminate].
    + rewrite andb_true_iff, IH. split.
      * intros [Hab [post ->]]. apply Ascii.eqb_eq in Hab. subst b.
        now exists post.
      * intros [post H]. injection H as -> ->. split.
        -- apply Ascii.eqb_refl.
        -- now exists post.
Qed.

Lemma contains_spec (needle hay : string) :
  contains needle hay = true <-> occurs_in needle hay.
Proof.
  unfold occurs_in. induction hay as [|b h IH].
  - simpl. rewrite orb_false_r, starts_with_spec. split.
    + intros [post H]. now exists "", post.
    + intros [pre [post H]]. destruct pre; [|discriminate].
      now exists post.
  - cbn [contains]. rewrite orb_true_iff, starts_with_spec, IH. split.
    + intros [[post H] | [pre [post H]]].
      * now exists "", post.
      * exists (String b pre), post. simpl. now rewrite H.
    + intros [pre [post H]]. destruct pre as [|c pre].
      * left. now exists post.
      * right. injection H as _ H. now exists pre, post.
Qed.

Lemma occurs_in_trans (a b c : string) :
  occurs_in a b -> occurs_in b c -> occurs_in a c.
Proof.
  intros [p1 [q1 ->]] [p2 [q2 ->]].
  exists (p2 ++ p1)%string, (q1 ++ q2)%string.
  now rewrite !append_assoc.
Qed.

Lemma contains_false (needle hay : string) :
  contains needle hay = false <-> ~ occurs_in needle hay.
Proof.
  rewrite <- contains_spec. destruct (contains needle hay); split;
    congruence.
Qed.

(** Every string that contains "aichat" contains "chat". *)
Lemma aichat_has_chat (s : string) :
  contains "aichat" s = true -> contains "chat" s = true.
Proof.
  rewrite !contains_spec. apply occurs_in_trans.
  now exists "ai", "".
Qed.

End Substrings.

(** ** The chat filter *)

Section ChatFilter.

(** On a text key both conditions are plain boolean disjunctions. *)
Lemma item_table_chat_text (s : string) :
  item_table_chat (VText s) =
  Ok (contains "chat" (lower s) || contains "composer" (lower s)
      || contains "aichat" (lower s) || contains "bubble" (lower s)).
Proof.
  unfold item_table_chat, in_lower, py_or.
  destruct (contains "chat" (lower s)), (contains "composer" (lower s)),
    (contains "aichat" (lower s)); reflexivity.
Qed.

Lemma cursor_disk_kv_chat_text (s : string) :
  cursor_disk_kv_chat (VText s) =
  Ok (contains "composer" (lower s) || contains "bubble" (lower s)
      || contains "chat" (lower s)).
Proof.
  unfold cursor_disk_kv_chat, in_lower, py_or.
  destruct (contains "composer" (lower s)), (contains "bubble" (lower s));
    reflexivity.
Qed.

Lemma spec_chat_like_iff (key : string) :
  spec_chat_like key <->
  contains "chat" (lower key) || contains "composer" (lower key)
  || contains "aichat" (lower key) || contains "bubble" (lower key) = true.
Proof.
  unfold spec_chat_like, chat_needles.
  rewrite !orb_true_iff, !contains_spec. split.
  - intros [n [Hin Hocc]]. simpl in Hin.
    destruct Hin as [<- | [<- | [<- | [<- | []]]]]; tauto.
  - intros [[[H | H] | H] | H]; eexists; (split; [|exact H]); simpl; tauto.
Qed.

Lemma filters_agree_on_text (s : string) :
  item_table_chat (VText s) = cursor_disk_kv_chat (VText s).
Proof.
  rewrite item_table_chat_text, cursor_disk_kv_chat_text. f_equal.
  pose proof (aichat_has_chat (lower s)) as H.
  destruct (contains "chat" (lower s)), (contains "composer" (lower s)),
    (contains "aichat" (lower s)), (contains "bubble" (lower s));
    try reflexivity; discriminate H; reflexivity.
Qed.

Lemma comprehension_if_ext {A} (p q : A -> Result bool) (xs : list A) :
  (forall x, p x = q x) -> comprehension_if p xs = comprehension_if q xs.
Proof.
  intros H. induction xs as [|x xs IH]; simpl; [reflexivity|].
  now rewrite H, IH.
Qed.

(** What a comprehension keeps is a sublist of what it ranges over, and
    every kept element passed the test. *)
Lemma comprehension_if_keeps {A} (p : A -> Result bool) (xs ys : list A) :
  comprehension_if p xs = Ok ys ->
  forall y, In y ys -> In y xs /\ p y = Ok true.
Proof.
  revert ys. induction xs as [|x xs IH]; simpl; intros ys H y Hy.
  - injection H as <-. destruct Hy.
  - destruct (p x) as [b|e] eqn:Hp; [|discriminate].
    destruct (comprehension_if p xs) as [zs|e] eqn:Hc; [|discriminate].
    injection H as <-. destruct b.
    + destruct Hy as [<- | Hy]; [tauto|].
      destruct (IH zs eq_refl y Hy); tauto.
    + destruct (IH zs eq_refl y Hy); tauto.
Qed.

End ChatFilter.

(** C6: a key is flagged by the chat filter (of either block) exactly when
    one of "chat", "composer", "aichat", "bubble" occurs somewhere in the
    lowered key; "MyChatSession" is flagged and "settings" is not. *)
Theorem C6_chat_filter_is_substring_match :
  (forall key : string,
      (item_table_chat (VText key) = Ok true <-> spec_chat_like key) /\
      (item_table_chat (VText key) = Ok false <-> ~ spec_chat_like key) /\
      (cursor_disk_kv_chat (VText key) = Ok true <-> spec_chat_like key) /\
      (cursor_disk_kv_chat (VText key) = Ok false <-> ~ spec_chat_like key)) /\
  item_table_chat (VText "MyChatSession") = Ok true /\
  item_table_chat (VText "settings") = Ok false /\
  cursor_disk_kv_chat (VText "MyChatSession") = Ok true /\
  cursor_disk_kv_chat (VText "settings") = Ok false.
Proof.
  split; [|repeat split; reflexivity].
  intros key.
  assert (Hi : forall b, item_table_chat (VText key) = Ok b <->
                         (spec_chat_like key <-> b = true)).
  { intros b. rewrite item_table_chat_text, spec_chat_like_iff.
    destruct (_ || _ || _ || _), b; split; intros H;
      try reflexivity; try discriminate; try tauto;
      destruct H as [H1 H2]; try (discriminate H1; reflexivity);
      try (discriminate H2; reflexivity). }
  rewrite <- filters_agree_on_text.
  repeat split; intros H.
  - now apply Hi in H; apply H.
  - apply Hi. tauto.
  - apply Hi in H. intros Hs. apply H in Hs. discriminate.
  - apply Hi. split; [tauto | discriminate].
  - now apply Hi in H; apply H.
  - apply Hi. tauto.
  - apply Hi in H. intros Hs. apply H in Hs. discriminate.
  - apply Hi. split; [tauto | discriminate].
Qed.

(** C10: the two chat filters flag the same keys.  On every value a key can
    have the two conditions have the same outcome, so the two comprehensions
    select the same sublist of any key sample; the reason is that a string
    containing "aichat" contains "chat". *)
Theorem C10_chat_filters_agree :
  (forall k : SqlValue, item_table_chat k = cursor_disk_kv_chat k) /\
  (forall keys : list SqlValue,
      comprehension_if item_table_chat keys =
      comprehension_if cursor_disk_kv_chat keys) /\
  (forall s : string, contains "aichat" s = true -> contains "chat" s = true).
Proof.
  assert (H : forall k, item_table_chat k = cursor_disk_kv_chat k).
  { intros [| z | r | s | b]; try reflexivity. apply filters_agree_on_text. }
  repeat split.
  - exact H.
  - intros keys. now apply comprehension_if_ext.
  - apply aichat_has_chat.
Qed.

(** ** Traces and outcomes of composed computations *)

Section Effects.

Lemma trace_bind {A B} (m : Proc A) (f : A -> Proc B) :
  trace (bind m f) =
  trace m ++ match outcome m with Ok a => trace (f a) | Raise _ => [] end.
Proof.
  destruct m as [t [a|e]]; simpl.
  - now destruct (f a).
  - now rewrite app_nil_r.
Qed.

Lemma outcome_bind {A B} (m : Proc A) (f : A -> Proc B) :
  outcome (bind m f) =
  match outcome m with Ok a => outcome (f a) | Raise e => Raise e end.
Proof.
  destruct m as [t [a|e]]; simpl; [now destruct (f a) | reflexivity].
Qed.

Lemma trace_try_except {A} (m : Proc A) (h : string -> Proc A) :
  trace (try_except m h) =
  trace m ++ match outcome m with Ok _ => [] | Raise e => trace (h e) end.
Proof.
  destruct m as [t [a|e]]; simpl.
  - now rewrite app_nil_r.
  - now destruct (h e).
Qed.

Lemma outcome_try_except {A} (m : Proc A) (h : string -> Proc A) :
  outcome (try_except m h) =
  match outcome m with Ok a => Ok a | Raise e => outcome (h e) end.
Proof.
  destruct m as [t [a|e]]; simpl; [reflexivity | now destruct (h e)].
Qed.

Lemma stdout_app (s t : Trace) : stdout (s ++ t) = stdout s ++ stdout t.
Proof.
  induction s as [|[l|u o|u q|u] s IH]; simpl; congruence.
Qed.

Lemma closes_app (s t : Trace) : closes (s ++ t) = closes s ++ closes t.
Proof.
  induction s as [|[l|u o|u q|u] s IH]; simpl; congruence.
Qed.

Lemma connects_app (s t : Trace) :
  connects (s ++ t) = connects s ++ connects t.
Proof.
  induction s as [|[l|u o|u q|u] s IH]; simpl; congruence.
Qed.

Lemma executed_app (s t : Trace) :
  executed (s ++ t) = executed s ++ executed t.
Proof.
  induction s as [|[l|u o|u q|u] s IH]; simpl; congruence.
Qed.

Lemma open_after_app (held : list string) (s t : Trace) :
  open_after held (s ++ t) = open_after (open_after held s) t.
Proof.
  revert held.
  induction s as [|[l|u [|]|u q|u] s IH]; intros held; simpl; auto.
Qed.

(** A trace that neither connects nor closes leaves the open connections
    as they were. *)
Lemma open_after_idle (held : list string) (t : Trace) :
  connects t = [] -> closes t = [] -> open_after held t = held.
Proof.
  revert held.
  induction t as [|[l|u [|]|u q|u] t IH]; intros held Hc Hx; simpl in *;
    auto; discriminate.
Qed.

(** A loop whose body never raises runs the body on every element, in
    order, and does not raise. *)
Lemma for_each_total {A} (body : A -> Proc unit) (xs : list A) :
  (forall x, outcome (body x) = Ok tt) ->
  outcome (for_each xs body) = Ok tt /\
  trace (for_each xs body) = flat_map (fun x => trace (body x)) xs.
Proof.
  intros Hb. induction xs as [|x xs [IHo IHt]]; simpl.
  - split; reflexivity.
  - rewrite outcome_bind, trace_bind, Hb, IHo, IHt. split; reflexivity.
Qed.

Lemma stdout_flat_map {A} (f : A -> Trace) (xs : list A) :
  stdout (flat_map f xs) = flat_map (fun x => stdout (f x)) xs.
Proof.
  induction xs as [|x xs IH]; simpl; [reflexivity|].
  now rewrite stdout_app, IH.
Qed.

End Effects.

(** ** Loops that may stop early, and printing *)

Section LoopsAndPrints.

Lemma for_each_cons_trace {A} (body : A -> Proc unit) (x : A) (xs : list A) :
  trace (for_each (x :: xs) body) =
  trace (body x) ++
  match outcome (body x) with
  | Ok _ => trace (for_each xs body)
  | Raise _ => []
  end.
Proof. cbn [for_each]. apply trace_bind. Qed.

Lemma for_each_cons_outcome {A} (body : A -> Proc unit) (x : A)
  (xs : list A) :
  outcome (for_each (x :: xs) body) =
  match outcome (body x) with
  | Ok _ => outcome (for_each xs body)
  | Raise e => Raise e
  end.
Proof. cbn [for_each]. apply outcome_bind. Qed.

Lemma for_each_in {A} (body : A -> Proc unit) (xs : list A) (ev : Event) :
  In ev (trace (for_each xs body)) ->
  exists x, In x xs /\ In ev (trace (body x)).
Proof.
  induction xs as [|x xs IH]; [intros []|].
  rewrite for_each_cons_trace, in_app_iff. intros [H | H].
  - exists x. split; [now left | assumption].
  - destruct (outcome (body x)); [|destruct H].
    destruct (IH H) as [y [Hy Hev]]. exists y. split; [now right|assumption].
Qed.

Lemma print_data (w : World) (l : Line) :
  carries_data l = true ->
  print w l =
  match print_raises w l with
  | None => ([Print l], Ok tt)
  | Some e => ([], Raise e)
  end.
Proof. unfold print. now intros ->. Qed.

Lemma print_script_text (w : World) (l : Line) :
  carries_data l = false -> print w l = ([Print l], Ok tt).
Proof. unfold print. now intros ->. Qed.

End LoopsAndPrints.

(** ** The generic-table scan *)

Section GenericScan.
Variable w : World.
Variable c : Connection.

Lemma describe_table_total (table : string) :
  outcome (describe_table w c table) = Ok tt.
Proof.
  unfold describe_table. rewrite outcome_try_except.
  now destruct (outcome _) as [[]|e].
Qed.

Lemma scan_table_total (table : string) :
  outcome (scan_table w c table) = Ok tt.
Proof.
  unfold scan_table. destruct (negb _); [apply describe_table_total|].
  reflexivity.
Qed.

(** The ways the description of one table can go. *)
Lemma describe_table_cases (table : string) :
  trace (describe_table w c table) =
  Execute (conn_uri c) ("SELECT COUNT(*) FROM [" ++ table ++ "]")%string ::
  match count_answer (conn_db c) table with
  | Raise _ => []
  | Ok 0 => []
  | Ok (S n) =>
      Execute (conn_uri c) ("PRAGMA table_info([" ++ table ++ "])")%string ::
      match columns_answer (conn_db c) table with
      | Raise _ => []
      | Ok cols =>
          match print_raises w (TableLine table (S n) cols) with
          | None => [Print (TableLine table (S n) cols)]
          | Some _ => []
          end
      end
  end.
Proof.
  unfold describe_table, select_count, select_columns, execute.
  destruct (count_answer (conn_db c) table) as [[|n]|e]; try reflexivity.
  cbn [bind Nat.ltb Nat.leb]. 
  destruct (columns_answer (conn_db c) table) as [cols|e]; [|reflexivity].
  rewrite print_data by reflexivity.
  destruct (print_raises w (TableLine table (S n) cols)); reflexivity.
Qed.

(** Nothing is ever printed for a table whose name is not quotable. *)
Lemma describe_unquotable (table : string) :
  quotable table = false -> stdout (trace (describe_table w c table)) = [].
Proof.
  intros Hq. rewrite describe_table_cases.
  unfold count_answer, columns_answer. rewrite Hq.
  destruct (bracket_texts (conn_db c) table) as [e|[|n] e]; reflexivity.
Qed.

(** What the scan prints for a table is what is owed to it. *)
Lemma scan_table_stdout (table : string) :
  stdout (trace (scan_table w c table)) = table_report w (conn_db c) table.
Proof.
  unfold scan_table, table_report.
  destruct (str_in table ["ItemTable"; "cursorDiskKV"]); [reflexivity|].
  cbn [negb]. destruct (quotable table) eqn:Hq;
    [|now apply describe_unquotable].
  rewrite describe_table_cases. unfold count_answer, columns_answer.
  rewrite Hq.
  destruct (table_rows (conn_db c) table) as [[|r rows]|e];
    cbn [result_map List.length stdout]; try reflexivity.
  destruct (table_info (conn_db c) table) as [infos|e];
    cbn [result_map stdout]; [|reflexivity].
  now destruct (print_raises w _).
Qed.

Lemma scan_table_quiet (table : string) :
  connects (trace (scan_table w c table)) = [] /\
  closes (trace (scan_table w c table)) = [].
Proof.
  unfold scan_table. destruct (negb _); [|split; reflexivity].
  rewrite describe_table_cases.
  destruct (count_answer _ _) as [[|n]|e]; cbn [connects closes]; auto.
  destruct (columns_answer _ _) as [cols|e]; cbn [connects closes]; auto.
  destruct (print_raises w _); auto.
Qed.

Lemma scan_total (tables : list string) :
  outcome (for_each tables (scan_table w c)) = Ok tt /\
  trace (for_each tables (scan_table w c)) =
  flat_map (fun t => trace (scan_table w c t)) tables.
Proof. apply for_each_total, scan_table_total. Qed.

Lemma scan_quiet (tables : list string) :
  connects (trace (for_each tables (scan_table w c))) = [] /\
  closes (trace (for_each tables (scan_table w c))) = [].
Proof.
  destruct (scan_total tables) as [_ ->].
  induction tables as [|t ts [IH1 IH2]]; simpl; [auto|].
  rewrite connects_app, closes_app, IH1, IH2.
  now destruct (scan_table_quiet t) as [-> ->].
Qed.

Lemma scan_stdout (tables : list string) :
  stdout (trace (for_each tables (scan_table w c))) =
  flat_map (table_report w (conn_db c)) tables.
Proof.
  destruct (scan_total tables) as [_ ->]. rewrite stdout_flat_map.
  induction tables as [|t ts IH]; [reflexivity|].
  cbn [flat_map]. now rewrite scan_table_stdout, IH.
Qed.

End GenericScan.

(** ** The two key-value blocks *)

Lemma item_table_block_shape (w : World) (c : Connection) :
  item_table_block w c = key_value_block w c "ItemTable" item_table_chat.
Proof. reflexivity. Qed.

Lemma cursor_disk_kv_block_shape (w : World) (c : Connection) :
  cursor_disk_kv_block w c =
  key_value_block w c "cursorDiskKV" cursor_disk_kv_chat.
Proof. reflexivity. Qed.

Lemma sample_length {A} (rows : list A) :
  List.length (firstn 30 rows) = Nat.min 30 (List.length rows).
Proof. apply length_firstn. Qed.

Lemma shown_at_most_15 {A} (keys : list A) :
  List.length (firstn 15 keys) <= 15.
Proof. rewrite length_firstn. apply Nat.le_min_l. Qed.

Lemma firstn_15_of_30 {A} (xs : list A) :
  firstn 15 (firstn 30 xs) = firstn 15 xs.
Proof. rewrite firstn_firstn. reflexivity. Qed.

Lemma chat_filter_on_text_keys (keys : list SqlValue) :
  forallb is_text keys = true ->
  comprehension_if item_table_chat keys = Ok (flagged keys).
Proof.
  induction keys as [|k ks IH]; [reflexivity|].
  cbn [forallb]. rewrite andb_true_iff. intros [Hk Hks].
  destruct k as [| z | r | s | b]; try discriminate.
  cbn [comprehension_if flagged filter].
  rewrite item_table_chat_text, (IH Hks). reflexivity.
Qed.

Lemma chat_filter_on_other_keys (keys : list SqlValue) :
  forallb is_text keys = false ->
  exists e, comprehension_if item_table_chat keys = Raise e.
Proof.
  induction keys as [|k ks IH]; [discriminate|].
  cbn [forallb]. rewrite andb_false_iff. intros [Hk | Hks].
  - destruct k as [| z | r | s | b]; try discriminate;
      cbn [comprehension_if]; eexists; reflexivity.
  - destruct (IH Hks) as [e He]. cbn [comprehension_if]. rewrite He.
    destruct (item_table_chat k) as [b|e']; eexists; reflexivity.
Qed.

Lemma cursor_condition_is_item_condition (k : SqlValue) :
  cursor_disk_kv_chat k = item_table_chat k.
Proof.
  destruct k as [| z | r | s | b]; try reflexivity.
  symmetry. apply filters_agree_on_text.
Qed.

Section KeyValueBlock.
Variable w : World.
Variable c : Connection.
Variable table : string.
Variable condition : SqlValue -> Result bool.
Hypothesis condition_is : forall k, condition k = item_table_chat k.

Local Abbreviation query :=
  (Execute (conn_uri c) ("SELECT key FROM " ++ table ++ " LIMIT 30")%string).

(** Every way a key-value block can go. *)
Lemma key_value_block_cases :
  key_value_block w c table condition =
  match key_column (conn_db c) table with
  | Raise e => ([query], Raise e)
  | Ok rows =>
      match print_raises w (key_line table rows) with
      | Some e => ([query], Raise e)
      | None =>
          match comprehension_if item_table_chat (firstn 30 rows) with
          | Raise e => ([query; Print (key_line table rows)], Raise e)
          | Ok [] => ([query; Print (key_line table rows)], Ok tt)
          | Ok ((_ :: _) as chat_keys) =>
              match print_raises w (ChatKeys chat_keys) with
              | None =>
                  ([query; Print (key_line table rows);
                    Print (ChatKeys chat_keys)], Ok tt)
              | Some e => ([query; Print (key_line table rows)], Raise e)
              end
          end
      end
  end.
Proof.
  unfold key_value_block, select_keys, execute, lift.
  destruct (key_column (conn_db c) table) as [rows|e]; [|reflexivity].
  cbn [result_map bind]. rewrite print_data by reflexivity.
  rewrite sample_length, firstn_15_of_30. fold (key_line table rows).
  rewrite (comprehension_if_ext condition item_table_chat _ condition_is).
  destruct (print_raises w (key_line table rows)) as [e|]; [reflexivity|].
  cbn [bind].
  destruct (comprehension_if item_table_chat (firstn 30 rows))
    as [[|k ks]|e]; try reflexivity.
  rewrite print_data by reflexivity.
  destruct (print_raises w (ChatKeys (k :: ks))); reflexivity.
Qed.

Lemma key_value_block_quiet :
  connects (trace (key_value_block w c table condition)) = [] /\
  closes (trace (key_value_block w c table condition)) = [].
Proof.
  rewrite key_value_block_cases.
  destruct (key_column _ _) as [rows|e]; [|split; reflexivity].
  destruct (print_raises w (key_line table rows)); [split; reflexivity|].
  destruct (comprehension_if _ _) as [[|k ks]|e]; try (split; reflexivity).
  destruct (print_raises w _); split; reflexivity.
Qed.

Lemma key_value_block_lines :
  forallb detail_line (stdout (trace (key_value_block w c table condition)))
  = true.
Proof.
  rewrite key_value_block_cases.
  destruct (key_column _ _) as [rows|e]; [|reflexivity].
  destruct (print_raises w (key_line table rows)); [reflexivity|].
  destruct (comprehension_if _ _) as [[|k ks]|e]; try reflexivity.
  destruct (print_raises w _); reflexivity.
Qed.

(** Where a line of the block comes from. *)
Lemma key_value_block_line (l : Line) :
  In l (stdout (trace (key_value_block w c table condition))) ->
  exists rows,
    key_column (conn_db c) table = Ok rows /\
    (l = key_line table rows \/
     exists chat_keys,
       chat_keys <> [] /\
       comprehension_if item_table_chat (firstn 30 rows) = Ok chat_keys /\
       l = ChatKeys chat_keys).
Proof.
  rewrite key_value_block_cases.
  destruct (key_column (conn_db c) table) as [rows|e]; [|intros []].
  intros H. exists rows. split; [reflexivity|].
  destruct (print_raises w (key_line table rows)); [destruct H|].
  destruct (comprehension_if item_table_chat (firstn 30 rows))
    as [[|k ks]|e].
  - destruct H as [<- | []]. now left.
  - destruct (print_raises w (ChatKeys (k :: ks))).
    + destruct H as [<- | []]. now left.
    + destruct H as [<- | [<- | []]]; [now left|].
      right. exists (k :: ks). repeat split. discriminate.
  - destruct H as [<- | []]. now left.
Qed.

(** The block runs to its end exactly when the key line prints, the
    sampled keys are text and the chat line, if any, prints. *)
Lemma key_value_block_completes (rows : list SqlValue) :
  key_column (conn_db c) table = Ok rows ->
  (outcome (key_value_block w c table condition) = Ok tt <->
   block_completes w table rows).
Proof.
  intros Hk. rewrite key_value_block_cases, Hk. unfold block_completes.
  destruct (print_raises w (key_line table rows)) as [e|].
  { split; [discriminate | intros [H _]; discriminate]. }
  destruct (forallb is_text (firstn 30 rows)) eqn:Ht.
  - rewrite (chat_filter_on_text_keys _ Ht).
    destruct (flagged (firstn 30 rows)) as [|k ks]; [tauto|].
    destruct (print_raises w (ChatKeys (k :: ks))) as [e|].
    + split; [discriminate|]. intros [_ [_ [H | H]]]; discriminate.
    + tauto.
  - destruct (chat_filter_on_other_keys _ Ht) as [e ->].
    split; [discriminate | intros [_ [H _]]; discriminate].
Qed.

(** What a block that runs to its end prints. *)
Lemma key_value_block_complete_stdout (rows : list SqlValue) :
  key_column (conn_db c) table = Ok rows ->
  block_completes w table rows ->
  stdout (trace (key_value_block w c table condition)) =
  key_line table rows ::
  match flagged (firstn 30 rows) with
  | [] => []
  | _ :: _ => [ChatKeys (flagged (firstn 30 rows))]
  end.
Proof.
  intros Hk [Hp [Ht Hc]]. rewrite key_value_block_cases, Hk, Hp.
  rewrite (chat_filter_on_text_keys _ Ht).
  destruct (flagged (firstn 30 rows)) as [|k ks]; [reflexivity|].
  destruct Hc as [Hc | Hc]; [discriminate|]. now rewrite Hc.
Qed.

(** The key line is the first thing a block prints, whenever its query
    answers and the line prints. *)
Lemma key_value_block_key_line (rows : list SqlValue) :
  key_column (conn_db c) table = Ok rows ->
  print_raises w (key_line table rows) = None ->
  exists rest,
    stdout (trace (key_value_block w c table condition)) =
    key_line table rows :: rest.
Proof.
  intros Hk Hp. rewrite key_value_block_cases, Hk, Hp.
  destruct (comprehension_if _ _) as [[|k ks]|e];
    try (eexists; reflexivity).
  destruct (print_raises w (ChatKeys (k :: ks))); eexists; reflexivity.
Qed.

(** A sampled key that is not text makes the block raise right after its
    key line. *)
Lemma key_value_block_other_keys (rows : list SqlValue) :
  key_column (conn_db c) table = Ok rows ->
  print_raises w (key_line table rows) = None ->
  forallb is_text (firstn 30 rows) = false ->
  exists e,
    key_value_block w c table condition =
    ([query; Print (key_line table rows)], Raise e).
Proof.
  intros Hk Hp Ht. rewrite key_value_block_cases, Hk, Hp.
  destruct (chat_filter_on_other_keys _ Ht) as [e ->]. now exists e.
Qed.

Lemma key_value_block_events :
  statement_template ("SELECT key FROM " ++ table ++ " LIMIT 30")%string ->
  Forall (event_of (conn_uri c))
         (trace (key_value_block w c table condition)).
Proof.
  intros Hs.
  assert (Hq : event_of (conn_uri c) query) by (split; [reflexivity|exact Hs]).
  rewrite key_value_block_cases.
  destruct (key_column _ _) as [rows|e]; [|events_of Hq].
  destruct (print_raises w (key_line table rows)); [events_of Hq|].
  destruct (comprehension_if _ _) as [[|k ks]|e]; try events_of Hq.
  destruct (print_raises w (ChatKeys (k :: ks))); events_of Hq.
Qed.

End KeyValueBlock.

(** ** One candidate *)

Section Candidate.
Variable w : World.

(** What follows the table list inside the [try] body. *)
Local Abbreviation after_tables c tables :=
  ((if str_in "ItemTable" tables then item_table_block w c else ret tt) ;;
   (if str_in "cursorDiskKV" tables then cursor_disk_kv_block w c
    else ret tt) ;;
   for_each tables (scan_table w c) ;;
   close c).

Lemma item_part_quiet (c : Connection) (tables : list string) :
  connects (trace (if str_in "ItemTable" tables
                   then item_table_block w c else ret tt)) = [] /\
  closes (trace (if str_in "ItemTable" tables
                 then item_table_block w c else ret tt)) = [].
Proof.
  destruct (str_in "ItemTable" tables); [|split; reflexivity].
  rewrite item_table_block_shape. apply key_value_block_quiet. reflexivity.
Qed.

Lemma cursor_part_quiet (c : Connection) (tables : list string) :
  connects (trace (if str_in "cursorDiskKV" tables
                   then cursor_disk_kv_block w c else ret tt)) = [] /\
  closes (trace (if str_in "cursorDiskKV" tables
                 then cursor_disk_kv_block w c else ret tt)) = [].
Proof.
  destruct (str_in "cursorDiskKV" tables); [|split; reflexivity].
  rewrite cursor_disk_kv_block_shape. apply key_value_block_quiet.
  apply cursor_condition_is_item_condition.
Qed.

Lemma error_print_trace (e : string) :
  trace (print w (Error e)) =
  match print_raises w (Error e) with
  | None => [Print (Error e)]
  | Some _ => []
  end.
Proof.
  rewrite print_data by reflexivity. now destruct (print_raises w (Error e)).
Qed.

Lemma error_print_outcome (e : string) :
  outcome (print w (Error e)) =
  match print_raises w (Error e) with
  | None => Ok tt
  | Some e' => Raise e'
  end.
Proof.
  rewrite print_data by reflexivity. now destruct (print_raises w (Error e)).
Qed.

Lemma inspect_connect_fails (path e : string) :
  sqlite3_connect w (uri_of path) = Raise e ->
  inspect w path = ([Connect (uri_of path) false], Raise e).
Proof.
  intros H. unfold inspect, connect. rewrite H. reflexivity.
Qed.

Lemma inspect_catalogue_fails (path e : string) (db : Database) :
  sqlite3_connect w (uri_of path) = Ok db ->
  sqlite_master db = Raise e ->
  inspect w path =
  ([Connect (uri_of path) true;
    Execute (uri_of path) "SELECT name FROM sqlite_master WHERE type='table'"],
   Raise e).
Proof.
  intros H1 H2. unfold inspect, connect, select_table_names, execute.
  rewrite H1. cbn [bind is_ok conn_db conn_uri]. rewrite H2. reflexivity.
Qed.

Lemma inspect_tables_unprintable (path e : string) (db : Database)
  (ms : list MasterRow) :
  sqlite3_connect w (uri_of path) = Ok db ->
  sqlite_master db = Ok ms ->
  print_raises w (Tables (table_names ms)) = Some e ->
  inspect w path =
  ([Connect (uri_of path) true;
    Execute (uri_of path) "SELECT name FROM sqlite_master WHERE type='table'"],
   Raise e).
Proof.
  intros H1 H2 H3. unfold inspect, connect, select_table_names, execute.
  rewrite H1. cbn [bind is_ok conn_db conn_uri]. rewrite H2.
  cbn [result_map bind]. rewrite print_data by reflexivity. rewrite H3.
  reflexivity.
Qed.

Lemma inspect_listed (path : string) (db : Database) (ms : list MasterRow) :
  sqlite3_connect w (uri_of path) = Ok db ->
  sqlite_master db = Ok ms ->
  print_raises w (Tables (table_names ms)) = None ->
  inspect w path =
  bind ([Connect (uri_of path) true;
         Execute (uri_of path)
           "SELECT name FROM sqlite_master WHERE type='table'";
         Print (Tables (table_names ms))], Ok tt)
    (fun _ =>
       after_tables {| conn_uri := uri_of path; conn_db := db |}
                    (table_names ms)).
Proof.
  intros H1 H2 H3. unfold inspect, connect, select_table_names, execute.
  rewrite H1. cbn [bind is_ok conn_db conn_uri]. rewrite H2.
  cbn [result_map bind]. rewrite print_data by reflexivity. rewrite H3.
  cbn [bind].
  destruct (after_tables _ _) as [t r]. reflexivity.
Qed.

(** The part after the table list never connects, and closes the connection
    exactly when it runs to its end. *)
Lemma after_tables_closes (c : Connection) (tables : list string) :
  connects (trace (after_tables c tables)) = [] /\
  closes (trace (after_tables c tables)) =
  match outcome (after_tables c tables) with
  | Ok _ => [conn_uri c]
  | Raise _ => []
  end.
Proof.
  destruct (item_part_quiet c tables) as [HA1 HA2].
  destruct (cursor_part_quiet c tables) as [HB1 HB2].
  destruct (scan_quiet w c tables) as [HS1 HS2].
  destruct (scan_total w c tables) as [HSo _].
  rewrite !trace_bind, !outcome_bind, HSo.
  rewrite !connects_app, !closes_app, HA1, HA2.
  destruct (outcome (if str_in "ItemTable" tables then _ else _))
    as [[]|e]; [|split; reflexivity].
  rewrite !connects_app, !closes_app, HB1, HB2.
  destruct (outcome (if str_in "cursorDiskKV" tables then _ else _))
    as [[]|e]; [|split; reflexivity].
  rewrite !connects_app, !closes_app, HS1, HS2. split; reflexivity.
Qed.

(** The [try] body closes its connection exactly when it does not raise. *)
Lemma inspect_closes (path : string) :
  closes (trace (inspect w path)) =
  match outcome (inspect w path) with
  | Ok _ => [uri_of path]
  | Raise _ => []
  end.
Proof.
  destruct (sqlite3_connect w (uri_of path)) as [db|e] eqn:Hc.
  - destruct (sqlite_master db) as [ms|e] eqn:Hm.
    + destruct (print_raises w (Tables (table_names ms))) as [e|] eqn:Hp.
      * now rewrite (inspect_tables_unprintable _ Hc Hm Hp).
      * rewrite (inspect_listed _ Hc Hm Hp), trace_bind, outcome_bind.
        cbn [trace outcome fst snd]. rewrite closes_app.
        destruct (after_tables_closes
                    {| conn_uri := uri_of path; conn_db := db |}
                    (table_names ms)) as [_ ->].
        reflexivity.
    + now rewrite (inspect_catalogue_fails _ Hc Hm).
  - now rewrite (inspect_connect_fails _ Hc).
Qed.

(** The [try] body attempts one connection, first. *)
Lemma inspect_connects (path : string) :
  exists rest,
    trace (inspect w path) =
    Connect (uri_of path) (is_ok (sqlite3_connect w (uri_of path))) :: rest /\
    connects rest = [].
Proof.
  destruct (sqlite3_connect w (uri_of path)) as [db|e] eqn:Hc.
  - destruct (sqlite_master db) as [ms|e] eqn:Hm.
    + destruct (print_raises w (Tables (table_names ms))) as [e|] eqn:Hp.
      * rewrite (inspect_tables_unprintable _ Hc Hm Hp).
        eexists. split; reflexivity.
      * rewrite (inspect_listed _ Hc Hm Hp), trace_bind.
        cbn [trace outcome fst snd app is_ok]. eexists.
        split; [reflexivity|]. cbn [connects].
        now destruct (after_tables_closes
                        {| conn_uri := uri_of path; conn_db := db |}
                        (table_names ms)) as [-> _].
    + rewrite (inspect_catalogue_fails _ Hc Hm). eexists. split; reflexivity.
  - rewrite (inspect_connect_fails _ Hc). eexists. split; reflexivity.
Qed.

(** The trace of one candidate, by cases on the existence of its file. *)
Lemma candidate_trace (name path : string) :
  trace (candidate w (name, path)) =
  Print (Header name path) ::
  if path_exists w path then
    trace (inspect w path) ++
    match outcome (inspect w path) with
    | Ok _ => []
    | Raise e => trace (print w (Error e))
    end
  else [Print FileNotFound].
Proof.
  unfold candidate. rewrite trace_bind.
  rewrite (print_script_text w (Header name path)) by reflexivity.
  cbn [trace outcome fst snd app].
  destruct (path_exists w path); cbn [negb]; [|reflexivity].
  now rewrite trace_try_except.
Qed.

(** The only exception that leaves the body of the candidate loop is the
    one raised by the print of the error line. *)
Lemma candidate_outcome (name path : string) :
  outcome (candidate w (name, path)) =
  if path_exists w path then
    match outcome (inspect w path) with
    | Ok _ => Ok tt
    | Raise e => outcome (print w (Error e))
    end
  else Ok tt.
Proof.
  unfold candidate. rewrite outcome_bind.
  rewrite (print_script_text w (Header name path)) by reflexivity.
  cbn [outcome snd].
  destruct (path_exists w path); cbn [negb]; [|reflexivity].
  rewrite outcome_try_except. now destruct (outcome (inspect w path)) as [[]|e].
Qed.

Lemma candidate_connects (np : string * string) :
  connects (trace (candidate w np)) =
  if path_exists w (snd np) then [uri_of (snd np)] else [].
Proof.
  destruct np as [name path]. rewrite candidate_trace. cbn [connects snd].
  destruct (path_exists w path); [|reflexivity].
  destruct (inspect_connects path) as [rest [-> Hr]].
  cbn [app connects]. rewrite connects_app, Hr.
  destruct (outcome _) as [[]|e]; [reflexivity|].
  rewrite error_print_trace. now destruct (print_raises w (Error e)).
Qed.

End Candidate.

Lemma table_reports_are_details (w : World) (db : Database)
  (tables : list string) :
  forallb detail_line (flat_map (table_report w db) tables) = true.
Proof.
  induction tables as [|t ts IH]; [reflexivity|].
  cbn [flat_map]. rewrite forallb_app, IH, andb_true_r.
  unfold table_report.
  destruct (str_in t _); [reflexivity|].
  destruct (quotable t); [|reflexivity].
  destruct (table_rows db t) as [[|r rows]|e']; try reflexivity.
  destruct (table_info db t) as [infos|e']; [|reflexivity].
  cbv zeta.
  match goal with
  | |- context [print_raises w (TableLine ?a ?b ?d)] =>
      destruct (print_raises w (TableLine a b d))
  end; reflexivity.
Qed.

(** ** A candidate whose table list was printed *)

Section Listed.
Variables (w : World) (name path : string) (db : Database).
Variable ms : list MasterRow.
Hypothesis Hexists : path_exists w path = true.
Hypothesis Hconnect : sqlite3_connect w (uri_of path) = Ok db.
Hypothesis Hmaster : sqlite_master db = Ok ms.
Hypothesis Hprint : print_raises w (Tables (table_names ms)) = None.

Local Abbreviation c := {| conn_uri := uri_of path; conn_db := db |}.
Local Abbreviation tables := (table_names ms).
Local Abbreviation item_part :=
  (if str_in "ItemTable" tables then item_table_block w c else ret tt).
Local Abbreviation cursor_part :=
  (if str_in "cursorDiskKV" tables then cursor_disk_kv_block w c
   else ret tt).

(** The outcome of the [try] body. *)
Lemma inspect_listed_outcome :
  outcome (inspect w path) =
  match outcome item_part with
  | Raise e => Raise e
  | Ok _ =>
      match outcome cursor_part with
      | Raise e => Raise e
      | Ok _ => Ok tt
      end
  end.
Proof.
  rewrite (@inspect_listed w path db ms Hconnect Hmaster Hprint), !outcome_bind.
  cbn [outcome snd].
  destruct (outcome item_part) as [[]|e]; [|reflexivity].
  destruct (outcome cursor_part) as [[]|e]; [|reflexivity].
  destruct (scan_total w c tables) as [-> _].
  reflexivity.
Qed.

(** The trace of the [try] body: the two key-value blocks in turn, then the
    scan and the close, cut short at the first block that raises. *)
Lemma inspect_listed_trace :
  trace (inspect w path) =
  [Connect (uri_of path) true;
   Execute (uri_of path) "SELECT name FROM sqlite_master WHERE type='table'";
   Print (Tables tables)] ++
  trace item_part ++
  match outcome item_part with
  | Raise _ => []
  | Ok _ =>
      trace cursor_part ++
      match outcome cursor_part with
      | Raise _ => []
      | Ok _ => trace (for_each tables (scan_table w c)) ++ [Close (uri_of path)]
      end
  end.
Proof.
  rewrite (@inspect_listed w path db ms Hconnect Hmaster Hprint).
  rewrite trace_bind. cbn [trace outcome fst snd].
  rewrite !trace_bind, ?outcome_bind. cbn [trace outcome fst snd close].
  destruct (scan_total w c tables) as [-> _].
  destruct (outcome item_part) as [[]|e]; [|reflexivity].
  destruct (outcome cursor_part) as [[]|e]; reflexivity.
Qed.

(** The whole trace of such a candidate. *)
Lemma candidate_listed_trace :
  trace (candidate w (name, path)) =
  [Print (Header name path);
   Connect (uri_of path) true;
   Execute (uri_of path) "SELECT name FROM sqlite_master WHERE type='table'";
   Print (Tables tables)] ++
  trace item_part ++
  match outcome item_part with
  | Raise e => trace (print w (Error e))
  | Ok _ =>
      trace cursor_part ++
      match outcome cursor_part with
      | Raise e => trace (print w (Error e))
      | Ok _ => trace (for_each tables (scan_table w c)) ++ [Close (uri_of path)]
      end
  end.
Proof.
  rewrite candidate_trace, Hexists, inspect_listed_trace,
    inspect_listed_outcome.
  destruct (outcome item_part) as [[]|e].
  - destruct (outcome cursor_part) as [[]|e].
    + now rewrite app_nil_r.
    + cbn [app]. now rewrite ?app_nil_r, <- ?app_assoc.
  - cbn [app]. now rewrite ?app_nil_r, <- ?app_assoc.
Qed.

(** The report of such a candidate is its header, its table list, and
    detail lines. *)
Lemma candidate_listed_stdout :
  exists rest,
    stdout (trace (candidate w (name, path))) =
      Header name path :: Tables (table_names ms) :: rest /\
    forallb detail_line rest = true.
Proof.
  assert (Herr : forall e,
             forallb detail_line (stdout (trace (print w (Error e)))) = true).
  { intros e. rewrite error_print_trace.
    now destruct (print_raises w (Error e)). }
  rewrite candidate_listed_trace.
  cbn [app stdout]. eexists. split; [reflexivity|].
  rewrite stdout_app, forallb_app. apply andb_true_iff. split.
  - destruct (str_in "ItemTable" (table_names ms)); [|reflexivity].
    rewrite item_table_block_shape. apply key_value_block_lines.
    reflexivity.
  - destruct (outcome item_part) as [[]|e]; [|apply Herr].
    rewrite stdout_app, forallb_app. apply andb_true_iff. split.
    + destruct (str_in "cursorDiskKV" (table_names ms)); [|reflexivity].
      rewrite cursor_disk_kv_block_shape. apply key_value_block_lines.
      apply cursor_condition_is_item_condition.
    + destruct (outcome cursor_part) as [[]|e]; [|apply Herr].
      rewrite stdout_app, forallb_app, scan_stdout.
      apply andb_true_iff. split; [|reflexivity].
      apply table_reports_are_details.
Qed.

End Listed.

(** ** Where a printed line comes from *)

Section LineOrigins.
Variable w : World.
Variable c : Connection.

Lemma item_table_block_line (l : Line) :
  In l (stdout (trace (item_table_block w c))) ->
  exists rows,
    key_column (conn_db c) "ItemTable" = Ok rows /\
    (l = key_line "ItemTable" rows \/
     exists chat_keys,
       chat_keys <> [] /\
       comprehension_if item_table_chat (firstn 30 rows) = Ok chat_keys /\
       l = ChatKeys chat_keys).
Proof.
  rewrite item_table_block_shape. apply key_value_block_line. reflexivity.
Qed.

Lemma cursor_disk_kv_block_line (l : Line) :
  In l (stdout (trace (cursor_disk_kv_block w c))) ->
  exists rows,
    key_column (conn_db c) "cursorDiskKV" = Ok rows /\
    (l = key_line "cursorDiskKV" rows \/
     exists chat_keys,
       chat_keys <> [] /\
       comprehension_if item_table_chat (firstn 30 rows) = Ok chat_keys /\
       l = ChatKeys chat_keys).
Proof.
  rewrite cursor_disk_kv_block_shape. apply key_value_block_line.
  apply cursor_condition_is_item_condition.
Qed.

Lemma table_report_line (table : string) (l : Line) :
  In l (table_report w (conn_db c) table) ->
  str_in table ["ItemTable"; "cursorDiskKV"] = false /\
  quotable table = true /\
  print_raises w l = None /\
  exists r rows infos,
    table_rows (conn_db c) table = Ok (r :: rows) /\
    table_info (conn_db c) table = Ok infos /\
    l = TableLine table (S (List.length rows)) (map col_name infos).
Proof.
  unfold table_report.
  destruct (str_in table ["ItemTable"; "cursorDiskKV"]); [intros []|].
  destruct (quotable table); [|intros []].
  destruct (table_rows (conn_db c) table) as [[|r rows]|e];
    try (intros []).
  destruct (table_info (conn_db c) table) as [infos|e]; [|intros []].
  cbv zeta. cbn [List.length].
  destruct (print_raises w (TableLine table (S (List.length rows))
                              (map col_name infos))) eqn:Hp; [intros []|].
  intros [<- | []]. repeat split; try assumption.
  exists r, rows, infos. repeat split.
Qed.

Lemma scan_line (tables : list string) (l : Line) :
  In l (stdout (trace (for_each tables (scan_table w c)))) ->
  exists table, In table tables /\ In l (table_report w (conn_db c) table).
Proof.
  rewrite scan_stdout, in_flat_map. trivial.
Qed.

End LineOrigins.

Section CandidateLines.
Variables (w : World) (name path : string).

Local Abbreviation the_connection db :=
  {| conn_uri := uri_of path; conn_db := db |}.

(** Every line of a candidate's report is its header, the missing-file
    line, the error of the [try] body, or a line of a candidate whose table
    list was read: that list, a line of a key-value block whose table is
    listed, or the line owed to a listed table. *)
Lemma candidate_line_origin (l : Line) :
  In l (stdout (trace (candidate w (name, path)))) ->
  l = Header name path \/
  (path_exists w path = false /\ l = FileNotFound) \/
  (path_exists w path = true /\
   exists e, outcome (inspect w path) = Raise e /\
             print_raises w (Error e) = None /\ l = Error e) \/
  (path_exists w path = true /\
   exists db ms,
     sqlite3_connect w (uri_of path) = Ok db /\
     sqlite_master db = Ok ms /\
     print_raises w (Tables (table_names ms)) = None /\
     (l = Tables (table_names ms) \/
      (str_in "ItemTable" (table_names ms) = true /\
       In l (stdout (trace (item_table_block w (the_connection db))))) \/
      (str_in "cursorDiskKV" (table_names ms) = true /\
       In l (stdout (trace (cursor_disk_kv_block w (the_connection db))))) \/
      exists table,
        In table (table_names ms) /\
        In l (table_report w db table))).
Proof.
  rewrite candidate_trace. cbn [stdout In]. intros [<- | H]; [now left|].
  right. destruct (path_exists w path) eqn:He.
  - right. rewrite stdout_app, in_app_iff in H. destruct H as [H | H].
    + right. split; [reflexivity|].
      destruct (sqlite3_connect w (uri_of path)) as [db|e] eqn:Hc.
      * destruct (sqlite_master db) as [ms|e] eqn:Hm.
        -- destruct (print_raises w (Tables (table_names ms)))
             as [e|] eqn:Hp.
           { rewrite (inspect_tables_unprintable _ _ Hc Hm Hp) in H.
             destruct H. }
           exists db, ms. split; [reflexivity|]. split; [assumption|].
           split; [assumption|].
           rewrite (@inspect_listed_trace w path db ms Hc Hm Hp) in H.
           rewrite !stdout_app in H. cbn [stdout app In] in H.
           destruct H as [<- | H]; [now left|]. right.
           rewrite in_app_iff in H. destruct H as [H | H].
           ++ left. destruct (str_in "ItemTable" (table_names ms));
                [tauto | destruct H].
           ++ destruct (outcome (if str_in "ItemTable" _ then _ else _))
                as [[]|e]; [|destruct H].
              rewrite stdout_app, in_app_iff in H. destruct H as [H | H].
              ** right. left.
                 destruct (str_in "cursorDiskKV" (table_names ms));
                   [tauto | destruct H].
              ** destruct (outcome (if str_in "cursorDiskKV" _ then _ else _))
                   as [[]|e]; [|destruct H].
                 rewrite stdout_app, in_app_iff in H.
                 destruct H as [H | H]; [|destruct H].
                 right. right.
                 now apply (scan_line w (the_connection db)).
        -- rewrite (inspect_catalogue_fails _ _ Hc Hm) in H. destruct H.
      * rewrite (inspect_connect_fails _ _ Hc) in H. destruct H.
    + left. split; [reflexivity|].
      destruct (outcome (inspect w path)) as [[]|e]; [destruct H|].
      rewrite error_print_trace in H.
      destruct (print_raises w (Error e)) eqn:Hp; [destruct H|].
      destruct H as [<- | []]. now exists e.
  - left. destruct H as [<- | []]. split; reflexivity.
Qed.

End CandidateLines.

(** ** The loop over the candidates *)



(** * The specification, statement by statement *)

(** C3: a candidate whose file does not exist gets its header line followed
    by "  FILE NOT FOUND" and nothing else, and no connection is attempted
    for it. *)
Theorem C3_missing_file_is_reported_and_skipped
  (w : World) (name path : string) :
  path_exists w path = false ->
  trace (candidate w (name, path)) =
    [Print (Header name path); Print FileNotFound] /\
  stdout (trace (candidate w (name, path))) = [Header name path; FileNotFound] /\
  connects (trace (candidate w (name, path))) = [] /\
  outcome (candidate w (name, path)) = Ok tt /\
  forall repr, render repr FileNotFound = "  FILE NOT FOUND".
Proof.
  intros H. rewrite candidate_trace, candidate_outcome, H. repeat split.
Qed.

Lemma C3_witness :
  path_exists Examples.nothing_installed (snd Examples.trae_cn) = false /\
  stdout (trace (candidate Examples.nothing_installed Examples.trae_cn)) =
    [Header (fst Examples.trae_cn) (snd Examples.trae_cn); FileNotFound].
Proof.
  split; [reflexivity|].
  apply (C3_missing_file_is_reported_and_skipped
           Examples.nothing_installed (fst Examples.trae_cn)
           (snd Examples.trae_cn)).
  reflexivity.
Defined.




(** The script on a world whose first file cannot be opened: the error is
    printed for that candidate and the two others are reported in full. *)
Example check_db_first_unopenable :
  stdout (trace (check_db Examples.first_unopenable)) =
  let report :=
    [Tables ["ItemTable"; "zeta"; "alpha"; "cursorDiskKV"];
     Keys "ItemTable" 3
       [VText "MyChatSession"; VText "settings";
        VText "workbench.panel.aichat"];
     ChatKeys [VText "MyChatSession"; VText "workbench.panel.aichat"];
     Keys "cursorDiskKV" 2 [VText "composerData:1"; VText "theme"];
     ChatKeys [VText "composerData:1"];
     TableLine "zeta" 2 ["id"; "label"]] in
  [Header (fst (nth 0 dbs ("", ""))) (snd (nth 0 dbs ("", "")));
   Error "unable to open database file"] ++
  Header (fst (nth 1 dbs ("", ""))) (snd (nth 1 dbs ("", ""))) :: report ++
  Header (fst (nth 2 dbs ("", ""))) (snd (nth 2 dbs ("", ""))) :: report.
Proof. vm_compute. reflexivity. Qed.

(** ** The connection handle *)

(** X11: when the [try] body runs to its end, the candidate closes its
    connection, once, and the close is the last event of the candidate. *)
Lemma connection_closed_on_success (w : World) (name path : string) :
  path_exists w path = true ->
  outcome (inspect w path) = Ok tt ->
  closes (trace (candidate w (name, path))) = [uri_of path] /\
  exists before,
    trace (candidate w (name, path)) = before ++ [Close (uri_of path)].
Proof.
  intros He Ho. rewrite candidate_trace, He, Ho, app_nil_r. cbn [closes].
  split; [now rewrite inspect_closes, Ho|].
  destruct (sqlite3_connect w (uri_of path)) as [db|e] eqn:Hc.
  - destruct (sqlite_master db) as [ms|e] eqn:Hm.
    + destruct (print_raises w (Tables (table_names ms))) as [e|] eqn:Hp.
      { rewrite (inspect_tables_unprintable _ _ Hc Hm Hp) in Ho.
        discriminate. }
      revert Ho.
      rewrite (@inspect_listed_outcome w path db ms Hc Hm Hp).
      rewrite (@inspect_listed_trace w path db ms Hc Hm Hp).
      destruct (outcome (if str_in "ItemTable" _ then _ else _)) as [[]|e];
        [|discriminate].
      destruct (outcome (if str_in "cursorDiskKV" _ then _ else _)) as [[]|e];
        [|discriminate].
      intros _. eexists. rewrite !app_assoc, app_comm_cons. reflexivity.
    + rewrite (inspect_catalogue_fails _ _ Hc Hm) in Ho. discriminate.
  - rewrite (inspect_connect_fails _ _ Hc) in Ho. discriminate.
Qed.

Lemma connection_closed_on_success_witness :
  closes (trace (candidate (Examples.all_hold Examples.populated)
                   Examples.trae_cn)) = [uri_of (snd Examples.trae_cn)].
Proof.
  apply (@connection_closed_on_success (Examples.all_hold Examples.populated)
           (fst Examples.trae_cn) (snd Examples.trae_cn));
    vm_compute; reflexivity.
Defined.

(** C2 (what the script does instead): when the connection of a candidate
    was opened and anything after that raises, the candidate's trace holds no
    [Close]: the handle is still open after the candidate.  The next
    candidate is processed with that handle open as soon as the error line
    prints; when it does not, the run ends there, the handle still open. *)
Theorem C2_connection_left_open_on_error
  (w : World) (name path : string) (db : Database) (e : string) :
  path_exists w path = true ->
  sqlite3_connect w (uri_of path) = Ok db ->
  outcome (inspect w path) = Raise e ->
  closes (trace (candidate w (name, path))) = [] /\
  (forall held,
      open_after held (trace (candidate w (name, path))) = uri_of path :: held) /\
  (forall rest,
      trace (check_candidates w ((name, path) :: rest)) =
      trace (candidate w (name, path)) ++
      match outcome (candidate w (name, path)) with
      | Ok _ => trace (check_candidates w rest)
      | Raise _ => []
      end) /\
  (print_raises w (Error e) = None ->
   forall rest,
     trace (check_candidates w ((name, path) :: rest)) =
     trace (candidate w (name, path)) ++ trace (check_candidates w rest)).
Proof.
  intros He Hc Ho.
  pose proof (inspect_closes w path) as Hcl. rewrite Ho in Hcl.
  destruct (inspect_connects w path) as [rest [Ht Hr]].
  rewrite Hc in Ht. cbn [is_ok] in Ht.
  assert (Hquiet : connects (trace (print w (Error e))) = [] /\
                   closes (trace (print w (Error e))) = []).
  { rewrite error_print_trace.
    destruct (print_raises w (Error e)); split; reflexivity. }
  destruct Hquiet as [Hq1 Hq2].
  split; [|split; [|split]].
  - rewrite candidate_trace, He, Ho. cbn [closes].
    now rewrite closes_app, Hcl, Hq2.
  - intros held. rewrite candidate_trace, He, Ho. cbn [open_after].
    rewrite Ht. cbn [app open_after].
    apply open_after_idle.
    + now rewrite connects_app, Hr, Hq1.
    + rewrite Ht in Hcl. cbn [closes] in Hcl. now rewrite closes_app, Hcl, Hq2.
  - intros others. unfold check_candidates. apply for_each_cons_trace.
  - intros Hp others. unfold check_candidates.
    rewrite for_each_cons_trace, candidate_outcome, He, Ho.
    now rewrite error_print_outcome, Hp.
Qed.

Lemma C2_witness :
  open_after [] (trace (candidate Examples.first_corrupt Examples.trae_cn)) =
  [uri_of (snd Examples.trae_cn)].
Proof.
  apply (C2_connection_left_open_on_error Examples.first_corrupt
           (fst Examples.trae_cn) (snd Examples.trae_cn)
           (db := Examples.not_a_database) (e := "file is not a database"));
    reflexivity.
Defined.

(** The whole script on that world: the first handle is never closed, the
    two others are. *)
Example check_db_first_corrupt :
  stdout (trace (candidate Examples.first_corrupt Examples.trae_cn)) =
    [Header (fst Examples.trae_cn) (snd Examples.trae_cn);
     Error "file is not a database"] /\
  connects (trace (check_db Examples.first_corrupt)) =
    map (fun np => uri_of (snd np)) dbs /\
  closes (trace (check_db Examples.first_corrupt)) =
    map (fun np => uri_of (snd np)) (tl dbs) /\
  open_after [] (trace (check_db Examples.first_corrupt)) =
    [uri_of (snd Examples.trae_cn)].
Proof. vm_compute. repeat split. Qed.

(** ** The table list *)

Lemma Keys_inj (t t' : string) (n n' : nat) (s s' : list SqlValue) :
  Keys t n s = Keys t' n' s' -> t = t' /\ n = n' /\ s = s'.
Proof. intros H. now injection H. Qed.

(** C4: for a candidate whose database opens and whose catalogue can be
    read, a table list in the report holds the names of the catalogue rows
    of type "table", each once per row and in catalogue order.  When the
    list can be printed it is the line right after the header and no other
    table list is printed for that candidate; when the console refuses it,
    the report has no table list (the header is followed by the error line
    of that refusal, if that one prints). *)
Theorem C4_table_list_is_the_catalogue
  (w : World) (name path : string) (db : Database) (ms : list MasterRow) :
  path_exists w path = true ->
  sqlite3_connect w (uri_of path) = Ok db ->
  sqlite_master db = Ok ms ->
  (forall ts,
      In (Tables ts) (stdout (trace (candidate w (name, path)))) ->
      ts = table_names ms) /\
  (print_raises w (Tables (table_names ms)) = None ->
   exists rest,
     stdout (trace (candidate w (name, path))) =
       Header name path :: Tables (table_names ms) :: rest /\
     forall ts, ~ In (Tables ts) rest) /\
  (forall e,
      print_raises w (Tables (table_names ms)) = Some e ->
      stdout (trace (candidate w (name, path))) =
        Header name path ::
        match print_raises w (Error e) with
        | None => [Error e]
        | Some _ => []
        end) /\
  (forall n,
      In n (table_names ms) <->
      exists r, In r ms /\ m_type r = "table" /\ m_name r = n) /\
  (forall r, table_names [r] = if (m_type r =? "table")%string
                               then [m_name r] else []) /\
  (forall ms1 ms2,
      table_names (ms1 ++ ms2) = table_names ms1 ++ table_names ms2).
Proof.
  intros He Hc Hm. split; [|split; [|split; [|repeat split]]].
  - intros ts H. apply candidate_line_origin in H.
    destruct H as [H | [[_ H] | [[_ [e [_ [_ H]]]] | [_ H]]]];
      try discriminate.
    destruct H as [db' [ms' [Hc' [Hm' [_ H]]]]].
    rewrite Hc in Hc'. injection Hc' as <-.
    rewrite Hm in Hm'. injection Hm' as <-.
    destruct H as [[= ->] | [[_ H] | [[_ H] | [t [_ H]]]]].
    + reflexivity.
    + apply item_table_block_line in H.
      destruct H as [rows [_ [H | [ck [_ [_ H]]]]]]; discriminate.
    + apply cursor_disk_kv_block_line in H.
      destruct H as [rows [_ [H | [ck [_ [_ H]]]]]]; discriminate.
    + apply (table_report_line w {| conn_uri := uri_of path; conn_db := db |})
        in H.
      destruct H as [_ [_ [_ [r [rows [infos [_ [_ H]]]]]]]]. discriminate.
  - intros Hp.
    destruct (@candidate_listed_stdout w name path db ms He Hc Hm Hp)
      as [rest [Hr Hd]].
    exists rest. split; [assumption|]. intros ts Hin.
    rewrite forallb_forall in Hd. specialize (Hd _ Hin). discriminate.
  - intros e Hp.
    rewrite candidate_trace, He, (inspect_tables_unprintable _ _ Hc Hm Hp).
    cbn [trace outcome fst snd app stdout]. rewrite error_print_trace.
    now destruct (print_raises w (Error e)).
  - unfold table_names. rewrite in_map_iff. intros [r [Hn Hr]].
    apply filter_In in Hr. destruct Hr as [Hr Ht].
    apply String.eqb_eq in Ht. eauto.
  - unfold table_names. rewrite in_map_iff. intros [r [Hr [Ht Hn]]].
    exists r. split; [assumption|]. apply filter_In. split; [assumption|].
    now apply String.eqb_eq.
  - intros r. unfold table_names. cbn [filter].
    now destruct (m_type r =? "table")%string.
  - intros ms1 ms2. unfold table_names. now rewrite filter_app, map_app.
Qed.

Lemma C4_witness :
  stdout (trace (candidate (Examples.all_hold Examples.populated)
                   Examples.trae_cn)) =
  Header (fst Examples.trae_cn) (snd Examples.trae_cn) ::
  Tables ["ItemTable"; "zeta"; "alpha"; "cursorDiskKV"] ::
  skipn 2 (stdout (trace (candidate (Examples.all_hold Examples.populated)
                            Examples.trae_cn))).
Proof.
  destruct (@C4_table_list_is_the_catalogue
              (Examples.all_hold Examples.populated)
              (fst Examples.trae_cn) (snd Examples.trae_cn)
              Examples.populated
              [Examples.master "table" "ItemTable";
               Examples.master "index" "sqlite_autoindex_ItemTable_1";
               Examples.master "table" "zeta";
               Examples.master "table" "alpha";
               Examples.master "table" "cursorDiskKV"]
              eq_refl eq_refl eq_refl) as [_ [H _]].
  destruct (H eq_refl) as [rest [Hr _]].
  change (candidate (Examples.all_hold Examples.populated) Examples.trae_cn)
    with (candidate (Examples.all_hold Examples.populated)
            (fst Examples.trae_cn, snd Examples.trae_cn)).
  rewrite Hr. reflexivity.
Defined.

(** A table whose name the console cannot take: the table list is not
    printed, the candidate reports the refusal and goes no further. *)
Example accented_table_report :
  stdout (trace (candidate (Samples.on_ascii_console Samples.accented_table)
                   Examples.trae_cn)) =
    [Header (fst Examples.trae_cn) (snd Examples.trae_cn);
     Error "'ascii' codec can't encode character '\xe9' in position 15: ordinal not in range(128)"] /\
  executed (trace (candidate (Samples.on_ascii_console Samples.accented_table)
                     Examples.trae_cn)) =
    ["SELECT name FROM sqlite_master WHERE type='table'"] /\
  closes (trace (candidate (Samples.on_ascii_console Samples.accented_table)
                   Examples.trae_cn)) = [].
Proof. vm_compute. repeat split. Qed.

(** ** Generic tables *)



(** ** Errors of the key-value blocks *)

(** C9, as amended: the key queries of the two key-value tables are not
    protected by the per-table handler.  When one of them raises, the
    exception leaves the [try] body and is handed to the print of the
    error line; the candidate's trace ends with the failing statement
    followed by the [ERROR] line (by nothing when that line does not
    print), and nothing that comes after the failing query is run: after
    ItemTable neither the cursorDiskKV block nor the scan, after
    cursorDiskKV not the scan.  What ran before the failing query stays in
    the report: the ItemTable block precedes the cursorDiskKV query. *)
Theorem C9_key_query_errors_abort_the_candidate
  (w : World) (name path : string) (db : Database) (ms : list MasterRow) :
  path_exists w path = true ->
  sqlite3_connect w (uri_of path) = Ok db ->
  sqlite_master db = Ok ms ->
  print_raises w (Tables (table_names ms)) = None ->
  let c := {| conn_uri := uri_of path; conn_db := db |} in
  let listed :=
    [Print (Header name path);
     Connect (uri_of path) true;
     Execute (uri_of path) "SELECT name FROM sqlite_master WHERE type='table'";
     Print (Tables (table_names ms))] in
  let item_part :=
    if str_in "ItemTable" (table_names ms)
    then item_table_block w c else ret tt in
  let error_line := fun e =>
    match print_raises w (Error e) with
    | None => [Print (Error e)]
    | Some _ => []
    end in
  (forall e,
      str_in "ItemTable" (table_names ms) = true ->
      key_column db "ItemTable" = Raise e ->
      outcome (inspect w path) = Raise e /\
      trace (candidate w (name, path)) =
        listed ++
        [Execute (uri_of path) "SELECT key FROM ItemTable LIMIT 30"] ++
        error_line e) /\
  (forall e,
      str_in "cursorDiskKV" (table_names ms) = true ->
      key_column db "cursorDiskKV" = Raise e ->
      outcome item_part = Ok tt ->
      outcome (inspect w path) = Raise e /\
      trace (candidate w (name, path)) =
        listed ++ trace item_part ++
        [Execute (uri_of path) "SELECT key FROM cursorDiskKV LIMIT 30"] ++
        error_line e /\
      executed (trace (candidate w (name, path))) =
        "SELECT name FROM sqlite_master WHERE type='table'" ::
        executed (trace item_part) ++
        ["SELECT key FROM cursorDiskKV LIMIT 30"]).
Proof.
  intros He Hc Hm Hp c listed item_part error_line. split.
  - intros e Hin Hk.
    assert (Hblock : item_table_block w c =
                     ([Execute (uri_of path)
                         "SELECT key FROM ItemTable LIMIT 30"], Raise e)).
    { rewrite item_table_block_shape, key_value_block_cases by reflexivity.
      cbn [conn_db c]. rewrite Hk. reflexivity. }
    split.
    + rewrite (@inspect_listed_outcome w path db ms Hc Hm Hp).
      rewrite Hin. fold c. rewrite Hblock. reflexivity.
    + rewrite (@candidate_listed_trace w name path db ms He Hc Hm Hp).
      rewrite Hin. fold c. rewrite Hblock. cbn [trace outcome fst snd].
      now rewrite error_print_trace.
  - intros e Hin Hk Hitem.
    assert (Hblock : cursor_disk_kv_block w c =
                     ([Execute (uri_of path)
                         "SELECT key FROM cursorDiskKV LIMIT 30"], Raise e)).
    { rewrite cursor_disk_kv_block_shape, key_value_block_cases
        by apply cursor_condition_is_item_condition.
      cbn [conn_db c]. rewrite Hk. reflexivity. }
    assert (Htrace : trace (candidate w (name, path)) =
                     listed ++ trace item_part ++
                     [Execute (uri_of path)
                        "SELECT key FROM cursorDiskKV LIMIT 30"] ++
                     error_line e).
    { rewrite (@candidate_listed_trace w name path db ms He Hc Hm Hp).
      fold c. fold item_part. rewrite Hitem, Hin, Hblock.
      cbn [trace outcome fst snd]. now rewrite error_print_trace. }
    split; [|split; [exact Htrace|]].
    + rewrite (@inspect_listed_outcome w path db ms Hc Hm Hp).
      fold c. fold item_part. rewrite Hitem, Hin, Hblock. reflexivity.
    + rewrite Htrace. unfold listed, error_line. cbn [app executed].
      rewrite executed_app. cbn [app executed].
      now destruct (print_raises w (Error e)).
Qed.

Lemma C9_witness :
  stdout (trace (candidate (Examples.all_hold Examples.item_unreadable)
                   Examples.trae_cn)) =
  [Header (fst Examples.trae_cn) (snd Examples.trae_cn);
   Tables ["ItemTable"; "zeta"; "alpha"; "cursorDiskKV"];
   Error "no such column: key"].
Proof.
  destruct (@C9_key_query_errors_abort_the_candidate
              (Examples.all_hold Examples.item_unreadable)
              (fst Examples.trae_cn) (snd Examples.trae_cn)
              Examples.item_unreadable
              [Examples.master "table" "ItemTable";
               Examples.master "index" "sqlite_autoindex_ItemTable_1";
               Examples.master "table" "zeta";
               Examples.master "table" "alpha";
               Examples.master "table" "cursorDiskKV"]
              eq_refl eq_refl eq_refl eq_refl) as [H _].
  destruct (H "no such column: key" eq_refl eq_refl) as [_ Ht].
  change (candidate (Examples.all_hold Examples.item_unreadable)
            Examples.trae_cn)
    with (candidate (Examples.all_hold Examples.item_unreadable)
            (fst Examples.trae_cn, snd Examples.trae_cn)).
  rewrite Ht. reflexivity.
Defined.

(** C9, as first stated, fails when the query that raises is the one on
    cursorDiskKV: the other key-value table, ItemTable, is not skipped; its
    query has run and its key line is in the report. *)
Lemma C9_counterexample :
  key_column Examples.cursor_unreadable "cursorDiskKV" =
    Raise "no such column: key" /\
  In "SELECT key FROM cursorDiskKV LIMIT 30"
     (executed (trace (candidate (Examples.all_hold Examples.cursor_unreadable)
                         Examples.trae_cn))) /\
  ~ (~ In "SELECT key FROM ItemTable LIMIT 30"
         (executed
            (trace (candidate (Examples.all_hold Examples.cursor_unreadable)
                      Examples.trae_cn))) /\
     forall n shown,
       ~ In (Keys "ItemTable" n shown)
           (stdout
              (trace (candidate (Examples.all_hold Examples.cursor_unreadable)
                        Examples.trae_cn)))).
Proof.
  split; [reflexivity|]. split.
  - vm_compute. tauto.
  - intros [H _]. apply H. vm_compute. tauto.
Qed.

(** The same with an unreadable cursorDiskKV: the ItemTable block, which
    runs first, is reported; the scan is not run and nothing is closed. *)
Example cursor_unreadable_report :
  stdout (trace (candidate (Examples.all_hold Examples.cursor_unreadable)
                   Examples.trae_cn)) =
    [Header (fst Examples.trae_cn) (snd Examples.trae_cn);
     Tables ["ItemTable"; "zeta"; "alpha"; "cursorDiskKV"];
     Keys "ItemTable" 3
       [VText "MyChatSession"; VText "settings";
        VText "workbench.panel.aichat"];
     ChatKeys [VText "MyChatSession"; VText "workbench.panel.aichat"];
     Error "no such column: key"] /\
  executed (trace (candidate (Examples.all_hold Examples.cursor_unreadable)
                     Examples.trae_cn)) =
    ["SELECT name FROM sqlite_master WHERE type='table'";
     "SELECT key FROM ItemTable LIMIT 30";
     "SELECT key FROM cursorDiskKV LIMIT 30"] /\
  closes (trace (candidate (Examples.all_hold Examples.cursor_unreadable)
                   Examples.trae_cn)) = [].
Proof. vm_compute. repeat split. Qed.

(** ** The key samples in the report *)

Lemma comprehension_if_length {A} (p : A -> Result bool) (xs ys : list A) :
  comprehension_if p xs = Ok ys -> List.length ys <= List.length xs.
Proof.
  revert ys. induction xs as [|x xs IH]; simpl; intros ys H.
  - injection H as <-. apply le_n.
  - destruct (p x) as [b|e]; [|discriminate].
    destruct (comprehension_if p xs) as [zs|e]; [|discriminate].
    injection H as <-. specialize (IH zs eq_refl).
    destruct b; simpl; auto using le_n_S.
Qed.

(** A comprehension that does not raise ranged over text keys and kept
    the flagged ones. *)
Lemma chat_filter_answer (keys chat_keys : list SqlValue) :
  comprehension_if item_table_chat keys = Ok chat_keys ->
  forallb is_text keys = true /\ chat_keys = flagged keys.
Proof.
  intros H. destruct (forallb is_text keys) eqn:Ht.
  - rewrite (chat_filter_on_text_keys _ Ht) in H. injection H as <-.
    split; reflexivity.
  - destruct (chat_filter_on_other_keys _ Ht) as [e He]. congruence.
Qed.

Section ReachedBlocks.
Variables (w : World) (c : Connection) (tables : list string).

Lemma item_part_completes :
  (str_in "ItemTable" tables = false \/
   exists rows,
     key_column (conn_db c) "ItemTable" = Ok rows /\
     block_completes w "ItemTable" rows) ->
  outcome (if str_in "ItemTable" tables then item_table_block w c
           else ret tt) = Ok tt.
Proof.
  intros [-> | [rows [Hk Hb]]]; [reflexivity|].
  destruct (str_in "ItemTable" tables); [|reflexivity].
  rewrite item_table_block_shape.
  now apply (@key_value_block_completes w c "ItemTable" item_table_chat
               (fun k => eq_refl) rows Hk).
Qed.

Lemma cursor_part_completes :
  (str_in "cursorDiskKV" tables = false \/
   exists rows,
     key_column (conn_db c) "cursorDiskKV" = Ok rows /\
     block_completes w "cursorDiskKV" rows) ->
  outcome (if str_in "cursorDiskKV" tables then cursor_disk_kv_block w c
           else ret tt) = Ok tt.
Proof.
  intros [-> | [rows [Hk Hb]]]; [reflexivity|].
  destruct (str_in "cursorDiskKV" tables); [|reflexivity].
  rewrite cursor_disk_kv_block_shape.
  now apply (@key_value_block_completes w c "cursorDiskKV" cursor_disk_kv_chat
               cursor_condition_is_item_condition rows Hk).
Qed.

Lemma item_part_report (db : Database) :
  conn_db c = db ->
  (str_in "ItemTable" tables = false \/
   exists rows,
     key_column db "ItemTable" = Ok rows /\
     block_completes w "ItemTable" rows) ->
  stdout (trace (if str_in "ItemTable" tables then item_table_block w c
                 else ret tt)) = key_report db tables "ItemTable".
Proof.
  intros <- H. unfold key_report.
  destruct (str_in "ItemTable" tables); [|reflexivity].
  destruct H as [H | [rows [Hk Hb]]]; [discriminate|].
  rewrite item_table_block_shape.
  rewrite (@key_value_block_complete_stdout w c "ItemTable" item_table_chat
             (fun k => eq_refl) rows Hk Hb), Hk.
  now destruct (flagged (firstn 30 rows)).
Qed.

Lemma cursor_part_report (db : Database) :
  conn_db c = db ->
  (str_in "cursorDiskKV" tables = false \/
   exists rows,
     key_column db "cursorDiskKV" = Ok rows /\
     block_completes w "cursorDiskKV" rows) ->
  stdout (trace (if str_in "cursorDiskKV" tables then cursor_disk_kv_block w c
                 else ret tt)) = key_report db tables "cursorDiskKV".
Proof.
  intros <- H. unfold key_report.
  destruct (str_in "cursorDiskKV" tables); [|reflexivity].
  destruct H as [H | [rows [Hk Hb]]]; [discriminate|].
  rewrite cursor_disk_kv_block_shape.
  rewrite (@key_value_block_complete_stdout w c "cursorDiskKV"
             cursor_disk_kv_chat cursor_condition_is_item_condition
             rows Hk Hb), Hk.
  now destruct (flagged (firstn 30 rows)).
Qed.

End ReachedBlocks.

(** The whole report of a candidate whose [try] body runs to its end. *)
Lemma complete_report (w : World) (name path : string) (db : Database)
  (ms : list MasterRow) :
  path_exists w path = true ->
  sqlite3_connect w (uri_of path) = Ok db ->
  sqlite_master db = Ok ms ->
  print_raises w (Tables (table_names ms)) = None ->
  scan_reached w db (table_names ms) ->
  stdout (trace (candidate w (name, path))) =
    Header name path :: Tables (table_names ms) ::
    key_report db (table_names ms) "ItemTable" ++
    key_report db (table_names ms) "cursorDiskKV" ++
    flat_map (table_report w db) (table_names ms).
Proof.
  intros He Hc Hm Hp [Hitem Hcursor].
  rewrite (@candidate_listed_trace w name path db ms He Hc Hm Hp).
  rewrite (@item_part_completes w
             {| conn_uri := uri_of path; conn_db := db |}
             (table_names ms) Hitem).
  rewrite (@cursor_part_completes w
             {| conn_uri := uri_of path; conn_db := db |}
             (table_names ms) Hcursor).
  cbn [app stdout]. rewrite !stdout_app, scan_stdout.
  rewrite (@item_part_report w
             {| conn_uri := uri_of path; conn_db := db |}
             (table_names ms) db eq_refl Hitem).
  rewrite (@cursor_part_report w
             {| conn_uri := uri_of path; conn_db := db |}
             (table_names ms) db eq_refl Hcursor).
  cbn [conn_db stdout]. now rewrite app_nil_r.
Qed.

Section BlockOutcomes.
Variables (w : World) (c : Connection) (table : string).
Variable condition : SqlValue -> Result bool.
Hypothesis condition_is : forall k, condition k = item_table_chat k.

(** A block whose query raises, or answers without the block running to
    its end, raises. *)
Lemma key_value_block_raises :
  (exists e, key_column (conn_db c) table = Raise e) \/
  (exists rows,
      key_column (conn_db c) table = Ok rows /\
      ~ block_completes w table rows) ->
  exists e, outcome (key_value_block w c table condition) = Raise e.
Proof.
  intros [[e He] | [rows [Hk Hn]]].
  - exists e. rewrite key_value_block_cases by exact condition_is.
    now rewrite He.
  - destruct (outcome (key_value_block w c table condition)) as [[]|e] eqn:Ho.
    + exfalso. apply Hn.
      now apply (@key_value_block_completes w c table condition
                   condition_is rows Hk).
    + now exists e.
Qed.

Lemma key_value_block_ok :
  outcome (key_value_block w c table condition) = Ok tt ->
  exists rows,
    key_column (conn_db c) table = Ok rows /\ block_completes w table rows.
Proof.
  intros Ho. destruct (key_column (conn_db c) table) as [rows|e] eqn:Hk.
  - exists rows. split; [reflexivity|].
    now apply (@key_value_block_completes w c table condition
                 condition_is rows Hk).
  - rewrite key_value_block_cases in Ho by exact condition_is.
    rewrite Hk in Ho. discriminate.
Qed.

End BlockOutcomes.

(** The scan is reached exactly when the [try] body runs to its end. *)
Lemma scan_reached_iff (w : World) (path : string) (db : Database)
  (ms : list MasterRow) :
  sqlite3_connect w (uri_of path) = Ok db ->
  sqlite_master db = Ok ms ->
  print_raises w (Tables (table_names ms)) = None ->
  (scan_reached w db (table_names ms) <-> outcome (inspect w path) = Ok tt).
Proof.
  intros Hc Hm Hp.
  rewrite (@inspect_listed_outcome w path db ms Hc Hm Hp). split.
  - intros [Hitem Hcursor].
    rewrite (@item_part_completes w
               {| conn_uri := uri_of path; conn_db := db |}
               (table_names ms) Hitem).
    now rewrite (@cursor_part_completes w
                   {| conn_uri := uri_of path; conn_db := db |}
                   (table_names ms) Hcursor).
  - intros H. split.
    + destruct (str_in "ItemTable" (table_names ms)); [right | now left].
      rewrite item_table_block_shape in H.
      apply (@key_value_block_ok w
               {| conn_uri := uri_of path; conn_db := db |} "ItemTable"
               item_table_chat (fun k => eq_refl)).
      now destruct (outcome (key_value_block _ _ _ _)) as [[]|e].
    + destruct (outcome (if str_in "ItemTable" _ then _ else _))
        as [[]|e]; [|discriminate].
      destruct (str_in "cursorDiskKV" (table_names ms)); [right | now left].
      rewrite cursor_disk_kv_block_shape in H.
      apply (@key_value_block_ok w
               {| conn_uri := uri_of path; conn_db := db |} "cursorDiskKV"
               cursor_disk_kv_chat cursor_condition_is_item_condition).
      now destruct (outcome (key_value_block _ _ _ _)) as [[]|e].
Qed.

(** C5, as amended: take a candidate whose table list is printed, and a
    key-value table that is listed and whose key query answers.  For
    ItemTable, and for cursorDiskKV when the ItemTable block (if it runs)
    ran to its end, the report shows the key line as soon as the console
    takes it: the count is min(30, number of rows) and the keys shown are
    the first 15, at most 15.  A chat-related line in the report is never
    empty and lists exactly the flagged keys of the sample of one of the
    two tables; for ItemTable it follows the key line whenever the sampled
    keys are text, some are flagged and the line prints.  When both blocks
    run to their end, the report is the header, the table list, the lines
    owed to ItemTable, those owed to cursorDiskKV (for each listed table
    its key line, followed by its flagged keys exactly when there are
    some), and the generic-table lines.  When the ItemTable block raises,
    cursorDiskKV gets no key line, whatever it holds. *)
Theorem C5_key_sample_report
  (w : World) (name path : string) (db : Database) (ms : list MasterRow) :
  path_exists w path = true ->
  sqlite3_connect w (uri_of path) = Ok db ->
  sqlite_master db = Ok ms ->
  print_raises w (Tables (table_names ms)) = None ->
  (forall rows,
      str_in "ItemTable" (table_names ms) = true ->
      key_column db "ItemTable" = Ok rows ->
      print_raises w (Keys "ItemTable" (Nat.min 30 (List.length rows))
                        (firstn 15 rows)) = None ->
      (exists rest,
          stdout (trace (candidate w (name, path))) =
            Header name path :: Tables (table_names ms) ::
            Keys "ItemTable" (Nat.min 30 (List.length rows)) (firstn 15 rows)
            :: rest) /\
      (forallb is_text (firstn 30 rows) = true ->
       flagged (firstn 30 rows) <> [] ->
       print_raises w (ChatKeys (flagged (firstn 30 rows))) = None ->
       exists rest,
         stdout (trace (candidate w (name, path))) =
           Header name path :: Tables (table_names ms) ::
           Keys "ItemTable" (Nat.min 30 (List.length rows)) (firstn 15 rows)
           :: ChatKeys (flagged (firstn 30 rows)) :: rest)) /\
  (forall rows,
      str_in "cursorDiskKV" (table_names ms) = true ->
      key_column db "cursorDiskKV" = Ok rows ->
      print_raises w (Keys "cursorDiskKV" (Nat.min 30 (List.length rows))
                        (firstn 15 rows)) = None ->
      (str_in "ItemTable" (table_names ms) = false \/
       exists item_rows,
         key_column db "ItemTable" = Ok item_rows /\
         block_completes w "ItemTable" item_rows) ->
      In (Keys "cursorDiskKV" (Nat.min 30 (List.length rows)) (firstn 15 rows))
         (stdout (trace (candidate w (name, path))))) /\
  (forall table n shown,
      In (Keys table n shown) (stdout (trace (candidate w (name, path)))) ->
      List.length shown <= 15 /\
      exists rows,
        (table = "ItemTable" \/ table = "cursorDiskKV") /\
        key_column db table = Ok rows /\
        n = Nat.min 30 (List.length rows) /\
        shown = firstn 15 (firstn 30 rows)) /\
  (forall chat_keys,
      In (ChatKeys chat_keys) (stdout (trace (candidate w (name, path)))) ->
      chat_keys <> [] /\
      exists table rows,
        (table = "ItemTable" \/ table = "cursorDiskKV") /\
        str_in table (table_names ms) = true /\
        key_column db table = Ok rows /\
        forallb is_text (firstn 30 rows) = true /\
        chat_keys = flagged (firstn 30 rows)) /\
  (scan_reached w db (table_names ms) ->
   stdout (trace (candidate w (name, path))) =
     Header name path :: Tables (table_names ms) ::
     key_report db (table_names ms) "ItemTable" ++
     key_report db (table_names ms) "cursorDiskKV" ++
     flat_map (table_report w db) (table_names ms)) /\
  (forall table rows,
      str_in table (table_names ms) = true ->
      key_column db table = Ok rows ->
      key_report db (table_names ms) table =
        Keys table (Nat.min 30 (List.length rows)) (firstn 15 rows) ::
        match flagged (firstn 30 rows) with
        | [] => []
        | _ :: _ => [ChatKeys (flagged (firstn 30 rows))]
        end) /\
  (str_in "ItemTable" (table_names ms) = true ->
   (exists e, key_column db "ItemTable" = Raise e) \/
   (exists rows,
       key_column db "ItemTable" = Ok rows /\
       ~ block_completes w "ItemTable" rows) ->
   forall n shown,
     ~ In (Keys "cursorDiskKV" n shown)
         (stdout (trace (candidate w (name, path))))).
Proof.
  intros He Hc Hm Hp.
  pose proof (@candidate_listed_trace w name path db ms He Hc Hm Hp) as Ht.
  split; [|split; [|split; [|split; [|split; [|split]]]]];
    [| | | | now apply complete_report
     | intros table rows Hin Hk; unfold key_report; rewrite Hin, Hk;
       now destruct (flagged (firstn 30 rows))
     | ].
  5: {
    intros Hin Hfail n shown H.
    destruct (@key_value_block_raises w
                {| conn_uri := uri_of path; conn_db := db |} "ItemTable"
                item_table_chat (fun k => eq_refl) Hfail) as [e Hr].
    rewrite Ht, Hin, item_table_block_shape, Hr in H.
    cbn [app stdout In] in H.
    destruct H as [H | [H | H]]; try discriminate.
    rewrite stdout_app, in_app_iff in H. destruct H as [H | H].
    - rewrite <- item_table_block_shape in H.
      apply item_table_block_line in H.
      destruct H as [rows [_ [H | [ck [_ [_ H]]]]]]; discriminate.
    - rewrite error_print_trace in H.
      destruct (print_raises w (Error e)); [destruct H|].
      destruct H as [H | []]. discriminate. }
  - intros rows Hin Hk Hkp. rewrite Ht, Hin. cbn [app stdout].
    rewrite stdout_app, item_table_block_shape. split.
    + destruct (@key_value_block_key_line w
                  {| conn_uri := uri_of path; conn_db := db |} "ItemTable"
                  item_table_chat (fun k => eq_refl) rows Hk Hkp)
        as [rest ->].
      eexists. reflexivity.
    + intros Htext Hf Hcp.
      rewrite (@key_value_block_complete_stdout w
                 {| conn_uri := uri_of path; conn_db := db |} "ItemTable"
                 item_table_chat (fun k => eq_refl) rows Hk).
      * destruct (flagged (firstn 30 rows)) as [|k ks]; [congruence|].
        eexists. reflexivity.
      * repeat split; auto.
  - intros rows Hin Hk Hkp Hitem. rewrite Ht.
    rewrite (@item_part_completes w
               {| conn_uri := uri_of path; conn_db := db |}
               (table_names ms) Hitem), Hin.
    cbn [app stdout]. right. right. rewrite stdout_app. apply in_or_app.
    right. rewrite stdout_app. apply in_or_app. left.
    rewrite cursor_disk_kv_block_shape.
    destruct (@key_value_block_key_line w
                {| conn_uri := uri_of path; conn_db := db |} "cursorDiskKV"
                cursor_disk_kv_chat cursor_condition_is_item_condition
                rows Hk Hkp) as [rest ->].
    now left.
  - intros table n shown H. apply candidate_line_origin in H.
    destruct H as [H | [[_ H] | [[_ [e [_ [_ H]]]] | [_ H]]]];
      try discriminate.
    destruct H as [db' [ms' [Hc' [Hm' [_ H]]]]].
    rewrite Hc in Hc'. injection Hc' as <-.
    rewrite Hm in Hm'. injection Hm' as <-.
    destruct H as [H | [[_ H] | [[_ H] | [t [_ H]]]]]; try discriminate.
    + apply item_table_block_line in H. cbn [conn_db] in H.
      destruct H as [rows [Hk [H | [ck [_ [_ H]]]]]]; [|discriminate].
      apply Keys_inj in H. destruct H as [-> [-> ->]].
      split; [apply shown_at_most_15|]. exists rows.
      rewrite firstn_15_of_30. repeat split; auto.
    + apply cursor_disk_kv_block_line in H. cbn [conn_db] in H.
      destruct H as [rows [Hk [H | [ck [_ [_ H]]]]]]; [|discriminate].
      apply Keys_inj in H. destruct H as [-> [-> ->]].
      split; [apply shown_at_most_15|]. exists rows.
      rewrite firstn_15_of_30. repeat split; auto.
    + apply (table_report_line w {| conn_uri := uri_of path; conn_db := db |})
        in H.
      destruct H as [_ [_ [_ [r [rows [infos [_ [_ H]]]]]]]]. discriminate.
  - intros chat_keys H. apply candidate_line_origin in H.
    destruct H as [H | [[_ H] | [[_ [e [_ [_ H]]]] | [_ H]]]];
      try discriminate.
    destruct H as [db' [ms' [Hc' [Hm' [_ H]]]]].
    rewrite Hc in Hc'. injection Hc' as <-.
    rewrite Hm in Hm'. injection Hm' as <-.
    destruct H as [H | [[Hin H] | [[Hin H] | [t [_ H]]]]]; try discriminate.
    + apply item_table_block_line in H. cbn [conn_db] in H.
      destruct H as [rows [Hk [H | [ck [Hne [Hf [= <-]]]]]]]; [discriminate|].
      split; [assumption|]. exists "ItemTable", rows.
      destruct (chat_filter_answer _ Hf) as [Htext ->]. repeat split; auto.
    + apply cursor_disk_kv_block_line in H. cbn [conn_db] in H.
      destruct H as [rows [Hk [H | [ck [Hne [Hf [= <-]]]]]]]; [discriminate|].
      split; [assumption|]. exists "cursorDiskKV", rows.
      destruct (chat_filter_answer _ Hf) as [Htext ->]. repeat split; auto.
    + apply (table_report_line w {| conn_uri := uri_of path; conn_db := db |})
        in H.
      destruct H as [_ [_ [_ [r [rows [infos [_ [_ H]]]]]]]]. discriminate.
Qed.

Lemma C5_witness :
  In (Keys "cursorDiskKV" 2 [VText "composerData:1"; VText "theme"])
     (stdout (trace (candidate (Examples.all_hold Examples.populated)
                       Examples.trae_cn))).
Proof.
  destruct (@C5_key_sample_report
              (Examples.all_hold Examples.populated)
              (fst Examples.trae_cn) (snd Examples.trae_cn)
              Examples.populated
              [Examples.master "table" "ItemTable";
               Examples.master "index" "sqlite_autoindex_ItemTable_1";
               Examples.master "table" "zeta";
               Examples.master "table" "alpha";
               Examples.master "table" "cursorDiskKV"]
              eq_refl eq_refl eq_refl eq_refl) as [_ [H _]].
  apply (H [VText "composerData:1"; VText "theme"] eq_refl eq_refl eq_refl).
  right. exists [VText "MyChatSession"; VText "settings";
                 VText "workbench.panel.aichat"].
  split; [reflexivity|]. repeat split. now right.
Defined.

(** C5, as first stated, fails for a cursorDiskKV that is present and
    readable when the ItemTable block before it raises (here on a NULL
    key): the report shows no key line for cursorDiskKV at all. *)
Lemma C5_counterexample :
  str_in "cursorDiskKV" ["ItemTable"; "cursorDiskKV"] = true /\
  sqlite_master Samples.null_key_first =
    Ok [Examples.master "table" "ItemTable";
        Examples.master "table" "cursorDiskKV"] /\
  key_column Samples.null_key_first "cursorDiskKV" =
    Ok [VText "composerData:1"; VText "theme"] /\
  stdout (trace (candidate (Examples.all_hold Samples.null_key_first)
                   Examples.trae_cn)) =
    [Header (fst Examples.trae_cn) (snd Examples.trae_cn);
     Tables ["ItemTable"; "cursorDiskKV"];
     Keys "ItemTable" 1 [VNull];
     Error "'NoneType' object has no attribute 'lower'"] /\
  forall n shown,
    ~ In (Keys "cursorDiskKV" n shown)
        (stdout (trace (candidate (Examples.all_hold Samples.null_key_first)
                          Examples.trae_cn))).
Proof.
  repeat split.
  intros n shown H. vm_compute in H.
  destruct H as [H | [H | [H | [H | []]]]]; discriminate.
Qed.

(** A table of forty rows: thirty keys are counted, fifteen are shown, and
    all thirty sampled keys are chat-related. *)
Example forty_keys_report :
  stdout (trace (candidate (Examples.all_hold Examples.forty_keys)
                   Examples.trae_cn)) =
  [Header (fst Examples.trae_cn) (snd Examples.trae_cn);
   Tables ["ItemTable"];
   Keys "ItemTable" 30 (repeat (VText "chat.history") 15);
   ChatKeys (repeat (VText "chat.history") 30)].
Proof. vm_compute. reflexivity. Qed.

(** ** Generic tables in the report *)

Lemma table_lines_app (a b : list Line) :
  table_lines (a ++ b) = table_lines a ++ table_lines b.
Proof.
  induction a as [|l a IH]; [reflexivity|].
  destruct l; cbn [app table_lines]; rewrite IH; reflexivity.
Qed.

Lemma table_lines_of_reports (w : World) (db : Database)
  (tables : list string) :
  table_lines (flat_map (table_report w db) tables) =
  flat_map (table_report w db) tables.
Proof.
  induction tables as [|t ts IH]; [reflexivity|].
  cbn [flat_map]. rewrite table_lines_app, IH. f_equal.
  unfold table_report.
  destruct (str_in t _); [reflexivity|].
  destruct (quotable t); [|reflexivity].
  destruct (table_rows db t) as [[|r rows]|e]; try reflexivity.
  destruct (table_info db t) as [infos|e]; [|reflexivity].
  cbv zeta.
  match goal with
  | |- context [print_raises w (TableLine ?a ?b ?d)] =>
      destruct (print_raises w (TableLine a b d))
  end; reflexivity.
Qed.

Lemma table_lines_of_block (w : World) (c : Connection) (table : string)
  (condition : SqlValue -> Result bool) :
  (forall k, condition k = item_table_chat k) ->
  table_lines (stdout (trace (key_value_block w c table condition))) = [].
Proof.
  intros H. rewrite key_value_block_cases by exact H.
  destruct (key_column _ _) as [rows|e]; [|reflexivity].
  destruct (print_raises w (key_line table rows)); [reflexivity|].
  destruct (comprehension_if _ _) as [[|k ks]|e]; try reflexivity.
  destruct (print_raises w (ChatKeys (k :: ks))); reflexivity.
Qed.

(** C7, as amended: take a candidate whose table list is printed.  When
    its scan is reached (each key-value block that runs, runs to its end),
    the generic-table lines of its report are, in the order of the table
    list, the lines owed to the listed tables; when the scan is not
    reached, the report has no such line.  The line owed to a table: none
    for ItemTable and cursorDiskKV, none for a table whose name holds a
    closing bracket, none for a table with no row, none when the count or
    the column query raises or when the console refuses the line; exactly
    one line for a table of at least one row whose column query answers
    and whose line prints, showing its exact row count and the column names
    the pragma reports, in schema order. *)
Theorem C7_generic_table_report
  (w : World) (name path : string) (db : Database) (ms : list MasterRow) :
  path_exists w path = true ->
  sqlite3_connect w (uri_of path) = Ok db ->
  sqlite_master db = Ok ms ->
  print_raises w (Tables (table_names ms)) = None ->
  (scan_reached w db (table_names ms) ->
   table_lines (stdout (trace (candidate w (name, path)))) =
     flat_map (table_report w db) (table_names ms)) /\
  (~ scan_reached w db (table_names ms) ->
   table_lines (stdout (trace (candidate w (name, path)))) = []) /\
  (forall table,
      str_in table ["ItemTable"; "cursorDiskKV"] = false ->
      quotable table = true ->
      (table_rows db table = Ok [] -> table_report w db table = []) /\
      (forall e, table_rows db table = Raise e ->
                 table_report w db table = []) /\
      (forall e, table_info db table = Raise e ->
                 table_report w db table = []) /\
      (forall rows infos,
          table_rows db table = Ok rows ->
          rows <> [] ->
          table_info db table = Ok infos ->
          (print_raises w (TableLine table (List.length rows)
                             (map col_name infos)) = None ->
           table_report w db table =
             [TableLine table (List.length rows) (map col_name infos)]) /\
          (forall e,
              print_raises w (TableLine table (List.length rows)
                                (map col_name infos)) = Some e ->
              table_report w db table = []))) /\
  (forall table,
      str_in table ["ItemTable"; "cursorDiskKV"] = true \/
      quotable table = false ->
      table_report w db table = []).
Proof.
  intros He Hc Hm Hp.
  pose proof (@candidate_listed_trace w name path db ms He Hc Hm Hp) as Ht.
  assert (HA : table_lines
                 (stdout
                    (trace (if str_in "ItemTable" (table_names ms)
                            then item_table_block w
                                   {| conn_uri := uri_of path;
                                      conn_db := db |}
                            else ret tt))) = []).
  { destruct (str_in "ItemTable" (table_names ms)); [|reflexivity].
    rewrite item_table_block_shape. now apply table_lines_of_block. }
  assert (HB : table_lines
                 (stdout
                    (trace (if str_in "cursorDiskKV" (table_names ms)
                            then cursor_disk_kv_block w
                                   {| conn_uri := uri_of path;
                                      conn_db := db |}
                            else ret tt))) = []).
  { destruct (str_in "cursorDiskKV" (table_names ms)); [|reflexivity].
    rewrite cursor_disk_kv_block_shape. apply table_lines_of_block.
    apply cursor_condition_is_item_condition. }
  assert (HE : forall e,
             table_lines (stdout (trace (print w (Error e)))) = []).
  { intros e. rewrite error_print_trace.
    now destruct (print_raises w (Error e)). }
  split; [|split; [|split]].
  - intros [Hitem Hcursor]. rewrite Ht.
    rewrite (@item_part_completes w
               {| conn_uri := uri_of path; conn_db := db |}
               (table_names ms) Hitem).
    rewrite (@cursor_part_completes w
               {| conn_uri := uri_of path; conn_db := db |}
               (table_names ms) Hcursor).
    cbn [app stdout table_lines].
    rewrite !stdout_app, !table_lines_app, scan_stdout.
    cbn [conn_db stdout table_lines]. rewrite table_lines_of_reports.
    rewrite app_nil_r. now rewrite HA, HB.
  - intros Hn.
    assert (Ho : outcome (inspect w path) <> Ok tt).
    { intros Ho. apply Hn.
      now apply (@scan_reached_iff w path db ms Hc Hm Hp). }
    rewrite (@inspect_listed_outcome w path db ms Hc Hm Hp) in Ho.
    rewrite Ht. cbn [app stdout table_lines].
    rewrite stdout_app, table_lines_app, HA.
    destruct (outcome (if str_in "ItemTable" _ then _ else _)) as [[]|e];
      [|apply HE].
    rewrite stdout_app, table_lines_app, HB.
    destruct (outcome (if str_in "cursorDiskKV" _ then _ else _)) as [[]|e];
      [now destruct Ho | apply HE].
  - intros table Hg Hq. unfold table_report. rewrite Hg, Hq.
    split; [now intros ->|]. split; [now intros e ->|]. split.
    + intros e ->. now destruct (table_rows db table) as [[|r rows]|e'].
    + intros rows infos -> Hne ->.
      destruct rows as [|r rows]; [congruence|]. cbv zeta.
      split; [now intros -> | now intros e ->].
  - intros table [Hs | Hq]; unfold table_report.
    + now rewrite Hs.
    + rewrite Hq. now destruct (str_in table _).
Qed.

Lemma C7_witness :
  table_lines (stdout (trace (candidate (Examples.all_hold Examples.populated)
                                Examples.trae_cn))) =
  [TableLine "zeta" 2 ["id"; "label"]].
Proof.
  destruct (@C7_generic_table_report
              (Examples.all_hold Examples.populated)
              (fst Examples.trae_cn) (snd Examples.trae_cn)
              Examples.populated
              [Examples.master "table" "ItemTable";
               Examples.master "index" "sqlite_autoindex_ItemTable_1";
               Examples.master "table" "zeta";
               Examples.master "table" "alpha";
               Examples.master "table" "cursorDiskKV"]
              eq_refl eq_refl eq_refl eq_refl) as [H _].
  change (candidate (Examples.all_hold Examples.populated) Examples.trae_cn)
    with (candidate (Examples.all_hold Examples.populated)
            (fst Examples.trae_cn, snd Examples.trae_cn)).
  rewrite H; [reflexivity|].
  split; right.
  - exists [VText "MyChatSession"; VText "settings";
            VText "workbench.panel.aichat"].
    split; [reflexivity|]. repeat split. now right.
  - exists [VText "composerData:1"; VText "theme"].
    split; [reflexivity|]. repeat split. now right.
Defined.

(** C7, as first stated, fails for a table of two rows when a key-value
    block raises before the scan (here the ItemTable query): the report has
    no line for it. *)
Lemma C7_counterexample :
  In "zeta" ["ItemTable"; "zeta"; "alpha"; "cursorDiskKV"] /\
  str_in "zeta" ["ItemTable"; "cursorDiskKV"] = false /\
  table_rows Examples.item_unreadable "zeta" =
    Ok [[VInt 1; VText "x"]; [VInt 2; VText "y"]] /\
  stdout (trace (candidate (Examples.all_hold Examples.item_unreadable)
                   Examples.trae_cn)) =
    [Header (fst Examples.trae_cn) (snd Examples.trae_cn);
     Tables ["ItemTable"; "zeta"; "alpha"; "cursorDiskKV"];
     Error "no such column: key"] /\
  forall count cols,
    ~ In (TableLine "zeta" count cols)
        (stdout (trace (candidate (Examples.all_hold Examples.item_unreadable)
                          Examples.trae_cn))).
Proof.
  split; [cbn; tauto|]. repeat split.
  intros count cols H. vm_compute in H.
  destruct H as [H | [H | [H | []]]]; discriminate.
Qed.

(** A table whose name holds a closing bracket gets no line, whatever its
    rows: here the count text parses and counts the pairs of rows of two
    other tables, of which there are none. *)
Example bracket_name_report :
  table_rows Samples.bracket_name "alpha], [zeta" = Ok [[VInt 7]] /\
  stdout (trace (candidate (Examples.all_hold Samples.bracket_name)
                   Examples.trae_cn)) =
    [Header (fst Examples.trae_cn) (snd Examples.trae_cn);
     Tables ["alpha"; "zeta"; "alpha], [zeta"];
     TableLine "zeta" 2 ["id"]] /\
  executed (trace (candidate (Examples.all_hold Samples.bracket_name)
                     Examples.trae_cn)) =
    ["SELECT name FROM sqlite_master WHERE type='table'";
     "SELECT COUNT(*) FROM [alpha]";
     "SELECT COUNT(*) FROM [zeta]";
     "PRAGMA table_info([zeta])";
     "SELECT COUNT(*) FROM [alpha], [zeta]"].
Proof. vm_compute. repeat split. Qed.

(** * Further properties of the script *)

(** ** What a report line tells about the database *)

Lemma verdict_true_is_chat_like (k : SqlValue) :
  item_table_chat k = Ok true ->
  exists s, k = VText s /\ spec_chat_like s.
Proof.
  destruct k as [| z | r | s | b]; try discriminate.
  rewrite item_table_chat_text. intros [= H]. exists s. split; [reflexivity|].
  now apply spec_chat_like_iff.
Qed.

(** X1: every generic-table line of a candidate's report is backed by the
    database: the table is in the table list, it is not one of the two
    key-value tables, the count shown is its number of rows and is at least
    one, and the columns shown are its column names in schema order. *)
Theorem table_line_is_backed
  (w : World) (name path table : string) (count : nat) (cols : list string) :
  In (TableLine table count cols) (stdout (trace (candidate w (name, path)))) ->
  exists db ms rows infos,
    sqlite3_connect w (uri_of path) = Ok db /\
    sqlite_master db = Ok ms /\
    In table (table_names ms) /\
    str_in table ["ItemTable"; "cursorDiskKV"] = false /\
    table_rows db table = Ok rows /\
    count = List.length rows /\ 1 <= count /\
    table_info db table = Ok infos /\
    cols = map col_name infos.
Proof.
  intros H. apply candidate_line_origin in H.
  destruct H as [H | [[_ H] | [[_ [e [_ [_ H]]]] | [_ H]]]];
    try discriminate.
  destruct H as [db [ms [Hc [Hm [_ H]]]]].
  destruct H as [H | [[_ H] | [[_ H] | [t [Ht H]]]]]; try discriminate.
  - apply item_table_block_line in H.
    destruct H as [rows [_ [H | [ck [_ [_ H]]]]]]; discriminate.
  - apply cursor_disk_kv_block_line in H.
    destruct H as [rows [_ [H | [ck [_ [_ H]]]]]]; discriminate.
  - apply (table_report_line w {| conn_uri := uri_of path; conn_db := db |})
      in H.
    cbn [conn_db] in H.
    destruct H as [Hg [_ [_ [r [rows [infos [Hr [Hi H]]]]]]]].
    injection H as -> -> ->.
    exists db, ms, (r :: rows), infos. repeat split; try assumption.
    apply le_n_S, Nat.le_0_l.
Qed.

Lemma table_line_is_backed_witness :
  exists db ms rows infos,
    sqlite3_connect (Examples.all_hold Examples.populated)
      (uri_of (snd Examples.trae_cn)) = Ok db /\
    sqlite_master db = Ok ms /\
    In "zeta" (table_names ms) /\
    str_in "zeta" ["ItemTable"; "cursorDiskKV"] = false /\
    table_rows db "zeta" = Ok rows /\
    2 = List.length rows /\ 1 <= 2 /\
    table_info db "zeta" = Ok infos /\
    ["id"; "label"] = map col_name infos.
Proof.
  apply (@table_line_is_backed (Examples.all_hold Examples.populated)
           (fst Examples.trae_cn) (snd Examples.trae_cn)).
  vm_compute. tauto.
Defined.

(** X2: every key line of a candidate's report is backed by the database:
    it names one of the two key-value tables, that table is in the table
    list, the count shown is min(30, number of rows), never more than 30,
    and the keys shown are the first 15 keys of the table (all of them when
    there are fewer). *)
Theorem key_line_is_backed
  (w : World) (name path table : string) (n : nat) (shown : list SqlValue) :
  In (Keys table n shown) (stdout (trace (candidate w (name, path)))) ->
  exists db ms rows,
    sqlite3_connect w (uri_of path) = Ok db /\
    sqlite_master db = Ok ms /\
    (table = "ItemTable" \/ table = "cursorDiskKV") /\
    str_in table (table_names ms) = true /\
    key_column db table = Ok rows /\
    n = Nat.min 30 (List.length rows) /\ n <= 30 /\
    shown = firstn 15 rows /\
    List.length shown = Nat.min 15 n.
Proof.
  intros H. apply candidate_line_origin in H.
  destruct H as [H | [[_ H] | [[_ [e [_ [_ H]]]] | [_ H]]]];
    try discriminate.
  destruct H as [db [ms [Hc [Hm [_ H]]]]].
  assert (Hlen : forall rows : list SqlValue,
             List.length (firstn 15 rows) =
             Nat.min 15 (Nat.min 30 (List.length rows))).
  { intros rows. rewrite length_firstn.
    destruct (Nat.le_ge_cases (List.length rows) 15) as [Hle | Hge].
    - rewrite (Nat.min_r 30), !(Nat.min_r 15); trivial.
      apply Nat.le_trans with 15; [assumption | repeat constructor].
    - rewrite (Nat.min_l 15 (List.length rows)) by assumption.
      symmetry. apply Nat.min_l. apply Nat.min_glb; [|assumption].
      repeat constructor. }
  destruct H as [H | [[Hin H] | [[Hin H] | [t [Ht H]]]]]; try discriminate.
  - apply item_table_block_line in H. cbn [conn_db] in H.
    destruct H as [rows [Hk [H | [ck [_ [_ H]]]]]]; [|discriminate].
    apply Keys_inj in H. destruct H as [-> [-> ->]].
    exists db, ms, rows. repeat split; auto using Nat.le_min_l.
  - apply cursor_disk_kv_block_line in H. cbn [conn_db] in H.
    destruct H as [rows [Hk [H | [ck [_ [_ H]]]]]]; [|discriminate].
    apply Keys_inj in H. destruct H as [-> [-> ->]].
    exists db, ms, rows. repeat split; auto using Nat.le_min_l.
  - apply (table_report_line w {| conn_uri := uri_of path; conn_db := db |})
      in H.
    destruct H as [_ [_ [_ [r [rows [infos [_ [_ H]]]]]]]]. discriminate.
Qed.

Lemma key_line_is_backed_witness :
  exists db ms rows,
    sqlite3_connect (Examples.all_hold Examples.forty_keys)
      (uri_of (snd Examples.trae_cn)) = Ok db /\
    sqlite_master db = Ok ms /\
    ("ItemTable" = "ItemTable" \/ "ItemTable" = "cursorDiskKV") /\
    str_in "ItemTable" (table_names ms) = true /\
    key_column db "ItemTable" = Ok rows /\
    30 = Nat.min 30 (List.length rows) /\ 30 <= 30 /\
    repeat (VText "chat.history") 15 = firstn 15 rows /\
    List.length (repeat (VText "chat.history") 15) = Nat.min 15 30.
Proof.
  apply (@key_line_is_backed (Examples.all_hold Examples.forty_keys)
           (fst Examples.trae_cn) (snd Examples.trae_cn)).
  vm_compute. tauto.
Defined.

(** X3: a chat-related line of a candidate's report is never empty, lists
    at most 30 keys, and every key on it is a text key in whose lowered form
    one of "chat", "composer", "aichat", "bubble" occurs. *)
Theorem chat_line_is_sound
  (w : World) (name path : string) (chat_keys : list SqlValue) :
  In (ChatKeys chat_keys) (stdout (trace (candidate w (name, path)))) ->
  chat_keys <> [] /\
  List.length chat_keys <= 30 /\
  forall k, In k chat_keys -> exists s, k = VText s /\ spec_chat_like s.
Proof.
  intros H. apply candidate_line_origin in H.
  destruct H as [H | [[_ H] | [[_ [e [_ [_ H]]]] | [_ H]]]];
    try discriminate.
  destruct H as [db [ms [Hc [Hm [_ H]]]]].
  assert (Hsound : forall rows : list SqlValue,
             comprehension_if item_table_chat (firstn 30 rows) =
               Ok chat_keys ->
             List.length chat_keys <= 30 /\
             forall k, In k chat_keys ->
                       exists s, k = VText s /\ spec_chat_like s).
  { intros rows Hf. split.
    - apply comprehension_if_length in Hf.
      apply Nat.le_trans with (List.length (firstn 30 rows));
        [assumption|].
      rewrite length_firstn. apply Nat.le_min_l.
    - intros k Hk.
      destruct (comprehension_if_keeps _ _ Hf k Hk) as [_ Hv].
      now apply verdict_true_is_chat_like. }
  destruct H as [H | [[_ H] | [[_ H] | [t [_ H]]]]]; try discriminate.
  - apply item_table_block_line in H.
    destruct H as [rows [_ [H | [ck [Hne [Hf [= <-]]]]]]]; [discriminate|].
    split; [assumption|]. now apply (Hsound rows).
  - apply cursor_disk_kv_block_line in H.
    destruct H as [rows [_ [H | [ck [Hne [Hf [= <-]]]]]]]; [discriminate|].
    split; [assumption|]. now apply (Hsound rows).
  - apply (table_report_line w {| conn_uri := uri_of path; conn_db := db |})
      in H.
    destruct H as [_ [_ [_ [r [rows [infos [_ [_ H]]]]]]]]. discriminate.
Qed.

Lemma chat_line_is_sound_witness :
  [VText "composerData:1"] <> [] /\
  List.length [VText "composerData:1"] <= 30 /\
  forall k, In k [VText "composerData:1"] ->
            exists s, k = VText s /\ spec_chat_like s.
Proof.
  apply (@chat_line_is_sound (Examples.all_hold Examples.populated)
           (fst Examples.trae_cn) (snd Examples.trae_cn)).
  vm_compute. tauto.
Defined.

(** X4: an [ERROR] line is in a candidate's report exactly when the file
    exists, the [try] body raised, and the console took the line; its
    message is that of the exception.  Swallowed errors of the table scan
    never show. *)
Theorem error_line_iff_inspection_raised
  (w : World) (name path e : string) :
  In (Error e) (stdout (trace (candidate w (name, path)))) <->
  path_exists w path = true /\
  outcome (inspect w path) = Raise e /\
  print_raises w (Error e) = None.
Proof.
  split.
  - intros H. apply candidate_line_origin in H.
    destruct H as [H | [[_ H] | [[He [e' [Ho [Hp [= ->]]]]] | [_ H]]]];
      try discriminate.
    + now repeat split.
    + destruct H as [db [ms [Hc [Hm [_ H]]]]].
      destruct H as [H | [[_ H] | [[_ H] | [t [_ H]]]]]; try discriminate.
      * apply item_table_block_line in H.
        destruct H as [rows [_ [H | [ck [_ [_ H]]]]]]; discriminate.
      * apply cursor_disk_kv_block_line in H.
        destruct H as [rows [_ [H | [ck [_ [_ H]]]]]]; discriminate.
      * apply (table_report_line w
                 {| conn_uri := uri_of path; conn_db := db |}) in H.
        destruct H as [_ [_ [_ [r [rows [infos [_ [_ H]]]]]]]]. discriminate.
  - intros [He [Ho Hp]]. rewrite candidate_trace, He, Ho.
    rewrite error_print_trace, Hp.
    cbn [stdout]. right. rewrite stdout_app. apply in_or_app. right.
    now left.
Qed.

(** ** The shape of a report *)

Lemma headers_of_details (ls : list Line) :
  forallb detail_line ls = true -> headers ls = [].
Proof.
  induction ls as [|l ls IH]; [reflexivity|].
  cbn [forallb]. rewrite andb_true_iff. intros [Hl Hs].
  destruct l; try discriminate; cbn [headers]; auto.
Qed.

(** X5: the report of a candidate starts with its header, followed by one
    of three things: the missing-file line; when the connection, the
    catalogue query or the print of the table list raises, the error line
    of that exception, or nothing if the console refuses that line too; or
    the table list and then only key, chat, table and error lines. *)
Theorem candidate_report_shape (w : World) (name path : string) :
  exists rest,
    stdout (trace (candidate w (name, path))) = Header name path :: rest /\
    ((path_exists w path = false /\ rest = [FileNotFound]) \/
     (path_exists w path = true /\
      exists e,
        (sqlite3_connect w (uri_of path) = Raise e \/
         exists db,
           sqlite3_connect w (uri_of path) = Ok db /\
           (sqlite_master db = Raise e \/
            exists ms,
              sqlite_master db = Ok ms /\
              print_raises w (Tables (table_names ms)) = Some e)) /\
        rest = match print_raises w (Error e) with
               | None => [Error e]
               | Some _ => []
               end) \/
     (path_exists w path = true /\
      exists db ms details,
        sqlite3_connect w (uri_of path) = Ok db /\
        sqlite_master db = Ok ms /\
        print_raises w (Tables (table_names ms)) = None /\
        rest = Tables (table_names ms) :: details /\
        forallb detail_line details = true)).
Proof.
  assert (Herr : forall e,
             stdout (trace (print w (Error e))) =
             match print_raises w (Error e) with
             | None => [Error e]
             | Some _ => []
             end).
  { intros e. rewrite error_print_trace.
    now destruct (print_raises w (Error e)). }
  destruct (path_exists w path) eqn:He.
  - destruct (sqlite3_connect w (uri_of path)) as [db|e] eqn:Hc.
    + destruct (sqlite_master db) as [ms|e] eqn:Hm.
      * destruct (print_raises w (Tables (table_names ms))) as [e|] eqn:Hp.
        -- eexists. split.
           ++ rewrite candidate_trace, He,
                (inspect_tables_unprintable _ _ Hc Hm Hp).
              cbn [trace outcome fst snd app stdout]. now rewrite Herr.
           ++ right. left. split; [reflexivity|]. exists e.
              split; [|reflexivity]. right. exists db.
              split; [reflexivity|]. right. now exists ms.
        -- destruct (@candidate_listed_stdout w name path db ms He Hc Hm Hp)
             as [details [Hr Hd]].
           eexists. split; [exact Hr|]. right. right.
           split; [reflexivity|]. now exists db, ms, details.
      * eexists. split.
        -- rewrite candidate_trace, He, (inspect_catalogue_fails _ _ Hc Hm).
           cbn [trace outcome fst snd app stdout]. now rewrite Herr.
        -- right. left. split; [reflexivity|]. exists e.
           split; [|reflexivity]. right. exists db. split; [reflexivity|].
           now left.
    + eexists. split.
      * rewrite candidate_trace, He, (inspect_connect_fails _ _ Hc).
        cbn [trace outcome fst snd app stdout]. now rewrite Herr.
      * right. left. split; [reflexivity|]. exists e.
        split; [now left | reflexivity].
  - eexists. split.
    + now rewrite candidate_trace, He.
    + left. split; reflexivity.
Qed.

Lemma headers_app (a b : list Line) :
  headers (a ++ b) = headers a ++ headers b.
Proof.
  induction a as [|l a IH]; [reflexivity|].
  destruct l; cbn [app headers]; rewrite IH; reflexivity.
Qed.

Lemma candidate_headers (w : World) (np : string * string) :
  headers (stdout (trace (candidate w np))) = [np].
Proof.
  destruct np as [name path].
  assert (Herr : forall e, headers (stdout (trace (print w (Error e)))) = []).
  { intros e. rewrite error_print_trace.
    now destruct (print_raises w (Error e)). }
  destruct (path_exists w path) eqn:He.
  - destruct (sqlite3_connect w (uri_of path)) as [db|e] eqn:Hc.
    + destruct (sqlite_master db) as [ms|e] eqn:Hm.
      * destruct (print_raises w (Tables (table_names ms))) as [e|] eqn:Hp.
        -- rewrite candidate_trace, He,
             (inspect_tables_unprintable _ _ Hc Hm Hp).
           cbn [trace outcome fst snd app stdout headers].
           now rewrite Herr.
        -- destruct (@candidate_listed_stdout w name path db ms He Hc Hm Hp)
             as [rest [-> Hd]].
           cbn [headers]. now rewrite (headers_of_details _ Hd).
      * rewrite candidate_trace, He, (inspect_catalogue_fails _ _ Hc Hm).
        cbn [trace outcome fst snd app stdout headers]. now rewrite Herr.
    + rewrite candidate_trace, He, (inspect_connect_fails _ _ Hc).
      cbn [trace outcome fst snd app stdout headers]. now rewrite Herr.
  - now rewrite candidate_trace, He.
Qed.

(** ** The candidates a run gets to *)

Lemma candidate_ends_the_run (w : World) (name path : string) :
  is_ok (outcome (candidate w (name, path))) = negb (ends_the_run w path).
Proof.
  rewrite candidate_outcome. unfold ends_the_run.
  destruct (path_exists w path); [|reflexivity].
  destruct (outcome (inspect w path)) as [[]|e]; [reflexivity|].
  rewrite error_print_outcome. now destruct (print_raises w (Error e)).
Qed.

Lemma processed_trace (w : World) (cands : list (string * string)) :
  trace (check_candidates w cands) =
  flat_map (fun np => trace (candidate w np)) (processed w cands).
Proof.
  unfold check_candidates.
  induction cands as [|[name path] cands IH]; [reflexivity|].
  rewrite for_each_cons_trace. cbn [processed flat_map]. f_equal.
  pose proof (candidate_ends_the_run w name path) as H.
  destruct (outcome (candidate w (name, path))) as [[]|e],
           (ends_the_run w path); try discriminate; [exact IH | reflexivity].
Qed.

Lemma processed_prefix (w : World) (cands : list (string * string)) :
  exists later, cands = processed w cands ++ later.
Proof.
  induction cands as [|[name path] cands [later IH]]; [now exists []|].
  cbn [processed]. destruct (ends_the_run w path).
  - now exists cands.
  - exists later. cbn [app]. now rewrite <- IH.
Qed.

Lemma processed_all (w : World) (cands : list (string * string)) :
  outcome (check_candidates w cands) = Ok tt -> processed w cands = cands.
Proof.
  unfold check_candidates.
  induction cands as [|[name path] cands IH]; [reflexivity|].
  rewrite for_each_cons_outcome. cbn [processed].
  pose proof (candidate_ends_the_run w name path) as H.
  destruct (outcome (candidate w (name, path))) as [[]|e],
           (ends_the_run w path); try discriminate.
  intros Ho. now rewrite (IH Ho).
Qed.

Lemma processed_none_ends (w : World) (cands : list (string * string)) :
  (forall np, In np cands -> ends_the_run w (snd np) = false) ->
  processed w cands = cands.
Proof.
  induction cands as [|[name path] cands IH]; [reflexivity|].
  intros H. cbn [processed].
  pose proof (H (name, path) (or_introl eq_refl)) as Hn. cbn [snd] in Hn.
  rewrite Hn. now rewrite IH by (intros np Hnp; apply H; now right).
Qed.

(** X6: the headers of the whole report are the candidates the run gets
    to, in the order of the mapping, each once: all of them up to and
    including the first one whose error line cannot be printed, if there is
    one, and all of the mapping otherwise. *)
Theorem one_header_per_candidate
  (w : World) (cands : list (string * string)) :
  headers (stdout (trace (check_candidates w cands))) = processed w cands /\
  (exists later, cands = processed w cands ++ later) /\
  ((forall np, In np cands -> ends_the_run w (snd np) = false) ->
   headers (stdout (trace (check_candidates w cands))) = cands) /\
  (outcome (check_candidates w cands) = Ok tt ->
   headers (stdout (trace (check_candidates w cands))) = cands).
Proof.
  assert (H : headers (stdout (trace (check_candidates w cands))) =
              processed w cands).
  { rewrite processed_trace.
    induction (processed w cands) as [|np nps IH]; [reflexivity|].
    cbn [flat_map]. now rewrite stdout_app, headers_app, candidate_headers, IH. }
  split; [exact H|]. split; [apply processed_prefix|]. split.
  - intros Hn. now rewrite H, processed_none_ends.
  - intros Ho. now rewrite H, processed_all.
Qed.

(** On a console that takes ASCII only, a first candidate whose error
    message is not ASCII ends the run: one header, one connection. *)
Example run_ended_by_the_first_candidate :
  processed (Samples.on_ascii_console Samples.missing_module) dbs =
    [Examples.trae_cn] /\
  headers (stdout (trace (check_db
                            (Samples.on_ascii_console Samples.missing_module))))
    = [Examples.trae_cn] /\
  headers (stdout (trace (check_db Examples.first_corrupt))) = dbs.
Proof. vm_compute. repeat split. Qed.

(** ** Connections and statements *)

(** X7: the connections attempted over a run are those of the candidates
    the run gets to whose file exists, in the order of the mapping, each
    once and with the read-only URI of its file; none is attempted for a
    missing file, and when the run is not ended by an exception none of the
    existing files of the mapping is left out. *)
Theorem one_connection_per_existing_file
  (w : World) (cands : list (string * string)) :
  connects (trace (check_candidates w cands)) =
    map (fun np => uri_of (snd np))
        (filter (fun np => path_exists w (snd np)) (processed w cands)) /\
  (outcome (check_candidates w cands) = Ok tt ->
   connects (trace (check_candidates w cands)) =
     map (fun np => uri_of (snd np))
         (filter (fun np => path_exists w (snd np)) cands)).
Proof.
  assert (H : connects (trace (check_candidates w cands)) =
              map (fun np => uri_of (snd np))
                  (filter (fun np => path_exists w (snd np))
                          (processed w cands))).
  { rewrite processed_trace.
    induction (processed w cands) as [|np nps IH]; [reflexivity|].
    cbn [flat_map filter].
    rewrite connects_app, candidate_connects, IH.
    now destruct (path_exists w (snd np)). }
  split; [exact H|]. intros Ho. now rewrite H, processed_all.
Qed.

Section EventsOfOneConnection.
Variable w : World.
Variable c : Connection.

Lemma scan_table_events (table : string) :
  Forall (event_of (conn_uri c)) (trace (scan_table w c table)).
Proof.
  unfold scan_table.
  destruct (str_in table ["ItemTable"; "cursorDiskKV"]) eqn:Hg;
    cbn [negb]; [constructor|].
  assert (Hcount : event_of (conn_uri c)
                     (Execute (conn_uri c)
                        ("SELECT COUNT(*) FROM [" ++ table ++ "]")%string)).
  { split; [reflexivity|]. right. right. right. exists table. auto. }
  assert (Hinfo : event_of (conn_uri c)
                    (Execute (conn_uri c)
                       ("PRAGMA table_info([" ++ table ++ "])")%string)).
  { split; [reflexivity|]. right. right. right. exists table. auto. }
  rewrite describe_table_cases. apply Forall_cons; [exact Hcount|].
  destruct (count_answer (conn_db c) table) as [[|n]|e];
    try apply Forall_nil.
  apply Forall_cons; [exact Hinfo|].
  destruct (columns_answer (conn_db c) table) as [cols|e];
    [|apply Forall_nil].
  destruct (print_raises w (TableLine table (S n) cols)); events_of I.
Qed.

Lemma scan_events (tables : list string) :
  Forall (event_of (conn_uri c)) (trace (for_each tables (scan_table w c))).
Proof.
  destruct (scan_total w c tables) as [_ ->].
  induction tables as [|t ts IH]; [constructor|].
  cbn [flat_map]. apply Forall_app. split; [apply scan_table_events|].
  exact IH.
Qed.

End EventsOfOneConnection.

Lemma candidate_events (w : World) (name path : string) :
  Forall (event_of (uri_of path)) (trace (candidate w (name, path))).
Proof.
  assert (Herr : forall e,
             Forall (event_of (uri_of path)) (trace (print w (Error e)))).
  { intros e. rewrite error_print_trace.
    destruct (print_raises w (Error e)); events_of I. }
  assert (Hq : event_of (uri_of path)
                 (Execute (uri_of path)
                    "SELECT name FROM sqlite_master WHERE type='table'")).
  { split; [reflexivity|]. left. reflexivity. }
  rewrite candidate_trace. constructor; [exact I|].
  destruct (path_exists w path); [|events_of I].
  apply Forall_app. split;
    [|destruct (outcome _); [apply Forall_nil | apply Herr]].
  destruct (sqlite3_connect w (uri_of path)) as [db|e] eqn:Hc.
  - destruct (sqlite_master db) as [ms|e] eqn:Hm.
    + destruct (print_raises w (Tables (table_names ms))) as [e|] eqn:Hp.
      { rewrite (inspect_tables_unprintable _ _ Hc Hm Hp). events_of Hq. }
      rewrite (@inspect_listed_trace w path db ms Hc Hm Hp).
      apply Forall_app. split; [events_of Hq|].
      apply Forall_app. split.
      * destruct (str_in "ItemTable" (table_names ms)); [|constructor].
        rewrite item_table_block_shape.
        apply (key_value_block_events w
                 {| conn_uri := uri_of path; conn_db := db |}
                 "ItemTable" item_table_chat (fun k => eq_refl)).
        right. left. reflexivity.
      * destruct (outcome (if str_in "ItemTable" _ then _ else _))
          as [[]|e]; [|constructor].
        apply Forall_app. split.
        -- destruct (str_in "cursorDiskKV" (table_names ms)); [|constructor].
           rewrite cursor_disk_kv_block_shape.
           apply (key_value_block_events w
                    {| conn_uri := uri_of path; conn_db := db |}
                    "cursorDiskKV" cursor_disk_kv_chat
                    cursor_condition_is_item_condition).
           right. right. left. reflexivity.
        -- destruct (outcome (if str_in "cursorDiskKV" _ then _ else _))
             as [[]|e]; [|constructor].
           apply Forall_app. split.
           ++ apply (scan_events w
                       {| conn_uri := uri_of path; conn_db := db |}).
           ++ events_of I.
    + rewrite (inspect_catalogue_fails _ _ Hc Hm). events_of Hq.
  - rewrite (inspect_connect_fails _ _ Hc). events_of I.
Qed.

(** X8: whatever the world, every connection, statement and close of the
    run concerns the read-only URI of a configured candidate, and every
    statement is the catalogue query, one of the two key queries, or the
    count or column query of a table that is not one of the two key-value
    tables.  The script executes nothing else. *)
Theorem only_template_statements
  (w : World) (cands : list (string * string)) (ev : Event) :
  In ev (trace (check_candidates w cands)) ->
  exists name path, In (name, path) cands /\ event_of (uri_of path) ev.
Proof.
  unfold check_candidates. intros H.
  destruct (for_each_in _ _ _ H) as [[name path] [Hin Hev]].
  exists name, path. split; [assumption|].
  pose proof (candidate_events w name path) as Hall.
  rewrite Forall_forall in Hall. now apply Hall.
Qed.

Lemma only_template_statements_witness :
  exists name path,
    In (name, path) dbs /\
    event_of (uri_of path)
      (Execute (uri_of (snd (nth 1 dbs ("", ""))))
         "SELECT COUNT(*) FROM [zeta]").
Proof.
  apply (@only_template_statements Samples.only_second dbs).
  vm_compute. tauto.
Defined.

(** ** Databases with nothing to show *)

Lemma str_in_false (x : string) (xs : list string) :
  str_in x xs = false -> forall y, In y xs -> y <> x.
Proof.
  unfold str_in. induction xs as [|z xs IH]; intros H y []; subst.
  - cbn [existsb] in H. apply orb_false_iff in H. destruct H as [H _].
    apply String.eqb_neq in H. congruence.
  - cbn [existsb] in H. apply orb_false_iff in H. destruct H as [_ H].
    now apply IH.
Qed.

Lemma scan_of_empty_tables (w : World) (c : Connection)
  (tables : list string) :
  (forall t, In t tables ->
             str_in t ["ItemTable"; "cursorDiskKV"] = false /\
             count_answer (conn_db c) t = Ok 0) ->
  trace (for_each tables (scan_table w c)) =
  map (fun t => Execute (conn_uri c)
                  ("SELECT COUNT(*) FROM [" ++ t ++ "]")%string) tables.
Proof.
  intros H. destruct (scan_total w c tables) as [_ ->].
  induction tables as [|t ts IH]; [reflexivity|].
  cbn [flat_map map]. rewrite IH by (intros u Hu; apply H; now right).
  destruct (H t (or_introl eq_refl)) as [Hg Hr].
  unfold scan_table. rewrite Hg. cbn [negb].
  now rewrite describe_table_cases, Hr.
Qed.

(** X9: when the table list is printed, holds neither key-value table, and
    the count of every listed table answers zero, the report of the
    candidate is its header and the table list, nothing else.  Each table
    is counted once, in list order, its columns are never queried, and the
    connection is closed. *)
Theorem empty_tables_report
  (w : World) (name path : string) (db : Database) (ms : list MasterRow) :
  path_exists w path = true ->
  sqlite3_connect w (uri_of path) = Ok db ->
  sqlite_master db = Ok ms ->
  print_raises w (Tables (table_names ms)) = None ->
  str_in "ItemTable" (table_names ms) = false ->
  str_in "cursorDiskKV" (table_names ms) = false ->
  (forall t, In t (table_names ms) -> count_answer db t = Ok 0) ->
  stdout (trace (candidate w (name, path))) =
    [Header name path; Tables (table_names ms)] /\
  executed (trace (candidate w (name, path))) =
    "SELECT name FROM sqlite_master WHERE type='table'" ::
    map (fun t => ("SELECT COUNT(*) FROM [" ++ t ++ "]")%string)
        (table_names ms) /\
  closes (trace (candidate w (name, path))) = [uri_of path].
Proof.
  intros He Hc Hm Hp Hi Hk Hrows.
  assert (Hscan :
            trace (for_each (table_names ms)
                     (scan_table w {| conn_uri := uri_of path;
                                      conn_db := db |})) =
            map (fun t => Execute (uri_of path)
                            ("SELECT COUNT(*) FROM [" ++ t ++ "]")%string)
                (table_names ms)).
  { apply (scan_of_empty_tables w
             {| conn_uri := uri_of path; conn_db := db |}).
    intros t Ht. split; [|now apply Hrows].
    pose proof (@str_in_false _ _ Hi t Ht) as H1.
    pose proof (@str_in_false _ _ Hk t Ht) as H2.
    unfold str_in. cbn [existsb].
    apply String.eqb_neq in H1, H2. now rewrite H1, H2. }
  rewrite (@candidate_listed_trace w name path db ms He Hc Hm Hp).
  rewrite Hi, Hk. cbn [ret trace outcome fst snd app]. rewrite Hscan.
  cbn [stdout executed closes].
  rewrite stdout_app, executed_app, closes_app.
  assert (Hmap : forall ts : list string,
             stdout (map (fun t => Execute (uri_of path)
                            ("SELECT COUNT(*) FROM [" ++ t ++ "]")%string)
                         ts) = [] /\
             closes (map (fun t => Execute (uri_of path)
                            ("SELECT COUNT(*) FROM [" ++ t ++ "]")%string)
                         ts) = [] /\
             executed (map (fun t => Execute (uri_of path)
                              ("SELECT COUNT(*) FROM [" ++ t ++ "]")%string)
                           ts) =
             map (fun t => ("SELECT COUNT(*) FROM [" ++ t ++ "]")%string) ts).
  { induction ts as [|t ts [IH1 [IH2 IH3]]]; cbn [map stdout closes executed];
      [auto|].
    rewrite IH3. auto. }
  destruct (Hmap (table_names ms)) as [-> [-> ->]].
  cbn [stdout executed closes app]. now rewrite app_nil_r.
Qed.

Lemma empty_tables_report_witness :
  executed (trace (candidate (Examples.all_hold Samples.empty_tables)
                     Examples.trae_cn)) =
  ["SELECT name FROM sqlite_master WHERE type='table'";
   "SELECT COUNT(*) FROM [alpha]";
   "SELECT COUNT(*) FROM [beta]"].
Proof.
  apply (@empty_tables_report (Examples.all_hold Samples.empty_tables)
           (fst Examples.trae_cn) (snd Examples.trae_cn)
           Samples.empty_tables
           [Examples.master "table" "alpha"; Examples.master "table" "beta"]);
    try reflexivity.
  intros t [<- | [<- | []]]; reflexivity.
Defined.

(** ** Keys that are not text *)

Lemma key_value_block_starts_with_query (w : World) (c : Connection)
  (table : string) (condition : SqlValue -> Result bool) :
  (forall k, condition k = item_table_chat k) ->
  exists rest,
    trace (key_value_block w c table condition) =
    Execute (conn_uri c) ("SELECT key FROM " ++ table ++ " LIMIT 30")%string
    :: rest.
Proof.
  intros H. rewrite key_value_block_cases by exact H.
  destruct (key_column _ _) as [rows|e]; [|eexists; reflexivity].
  destruct (print_raises w (key_line table rows)); [eexists; reflexivity|].
  destruct (comprehension_if _ _) as [[|k ks]|e]; try (eexists; reflexivity).
  destruct (print_raises w (ChatKeys (k :: ks))); eexists; reflexivity.
Qed.

(** X10: take a candidate whose table list is printed, with ItemTable
    listed, its key query answering and its key line printed.  If one of
    the first 30 keys is not text (NULL, a number, a blob), the [try] body
    raises right after the key line: the candidate's trace ends with that
    line followed by the error line (by nothing if the console refuses
    it), no further statement is executed and the connection is not
    closed.  If the first 30 keys are all text and the chat line, if there
    is one, prints, the block runs to its end and the candidate goes on:
    with the key query of cursorDiskKV when that table is listed, else
    with the scan, after which the connection is closed.  Keys beyond the
    thirtieth row are not looked at. *)
Theorem key_blocks_need_text_keys
  (w : World) (name path : string) (db : Database) (ms : list MasterRow)
  (rows : list SqlValue) :
  path_exists w path = true ->
  sqlite3_connect w (uri_of path) = Ok db ->
  sqlite_master db = Ok ms ->
  print_raises w (Tables (table_names ms)) = None ->
  str_in "ItemTable" (table_names ms) = true ->
  key_column db "ItemTable" = Ok rows ->
  print_raises w (Keys "ItemTable" (Nat.min 30 (List.length rows))
                    (firstn 15 rows)) = None ->
  let block :=
    [Print (Header name path);
     Connect (uri_of path) true;
     Execute (uri_of path)
       "SELECT name FROM sqlite_master WHERE type='table'";
     Print (Tables (table_names ms));
     Execute (uri_of path) "SELECT key FROM ItemTable LIMIT 30";
     Print (Keys "ItemTable" (Nat.min 30 (List.length rows))
              (firstn 15 rows))] in
  (forallb is_text (firstn 30 rows) = false ->
   exists e,
     outcome (inspect w path) = Raise e /\
     trace (candidate w (name, path)) =
       block ++
       match print_raises w (Error e) with
       | None => [Print (Error e)]
       | Some _ => []
       end /\
     closes (trace (candidate w (name, path))) = []) /\
  (forallb is_text (firstn 30 rows) = true ->
   flagged (firstn 30 rows) = [] \/
   print_raises w (ChatKeys (flagged (firstn 30 rows))) = None ->
   exists rest,
     trace (candidate w (name, path)) =
       block ++
       match flagged (firstn 30 rows) with
       | [] => []
       | _ :: _ => [Print (ChatKeys (flagged (firstn 30 rows)))]
       end ++ rest /\
     (str_in "cursorDiskKV" (table_names ms) = true ->
      exists rest',
        rest =
        Execute (uri_of path) "SELECT key FROM cursorDiskKV LIMIT 30"
        :: rest') /\
     (str_in "cursorDiskKV" (table_names ms) = false ->
      outcome (inspect w path) = Ok tt /\
      rest = trace (for_each (table_names ms)
                      (scan_table w {| conn_uri := uri_of path;
                                       conn_db := db |}))
             ++ [Close (uri_of path)])).
Proof.
  intros He Hc Hm Hp Hin Hk Hkp block. split.
  - intros Ht.
    destruct (@key_value_block_other_keys w
                {| conn_uri := uri_of path; conn_db := db |} "ItemTable"
                item_table_chat (fun k => eq_refl) rows Hk Hkp Ht)
      as [e Hblock].
    exists e.
    assert (Htrace : trace (candidate w (name, path)) =
              block ++
              match print_raises w (Error e) with
              | None => [Print (Error e)]
              | Some _ => []
              end).
    { rewrite (@candidate_listed_trace w name path db ms He Hc Hm Hp).
      rewrite Hin, item_table_block_shape, Hblock.
      cbn [trace outcome fst snd]. now rewrite error_print_trace. }
    split; [|split; [exact Htrace|]].
    + rewrite (@inspect_listed_outcome w path db ms Hc Hm Hp).
      now rewrite Hin, item_table_block_shape, Hblock.
    + rewrite Htrace. now destruct (print_raises w (Error e)).
  - intros Ht Hchat.
    assert (Hblock :
              item_table_block w {| conn_uri := uri_of path; conn_db := db |} =
              ([Execute (uri_of path) "SELECT key FROM ItemTable LIMIT 30";
                Print (Keys "ItemTable" (Nat.min 30 (List.length rows))
                         (firstn 15 rows))] ++
               match flagged (firstn 30 rows) with
               | [] => []
               | _ :: _ => [Print (ChatKeys (flagged (firstn 30 rows)))]
               end, Ok tt)).
    { rewrite item_table_block_shape, key_value_block_cases by reflexivity.
      cbn [conn_db conn_uri]. rewrite Hk. unfold key_line. rewrite Hkp.
      rewrite (chat_filter_on_text_keys _ Ht).
      destruct (flagged (firstn 30 rows)) as [|k ks]; [reflexivity|].
      destruct Hchat as [Hchat | Hchat]; [discriminate|].
      now rewrite Hchat. }
    rewrite (@candidate_listed_trace w name path db ms He Hc Hm Hp).
    rewrite (@inspect_listed_outcome w path db ms Hc Hm Hp).
    rewrite Hin, Hblock. cbn [trace outcome fst snd].
    eexists. split.
    + unfold block. cbn [app]. reflexivity.
    + split.
      * intros Hcur. rewrite Hcur, cursor_disk_kv_block_shape.
        destruct (key_value_block_starts_with_query w
                    {| conn_uri := uri_of path; conn_db := db |}
                    "cursorDiskKV" cursor_disk_kv_chat
                    cursor_condition_is_item_condition) as [rest' ->].
        eexists. reflexivity.
      * intros Hcur. rewrite Hcur. split; reflexivity.
Qed.

Lemma key_blocks_need_text_keys_witness :
  closes (trace (candidate (Examples.all_hold Samples.null_key)
                   (fst Examples.trae_cn, snd Examples.trae_cn))) = [] /\
  outcome (inspect (Examples.all_hold Samples.late_null_key)
             (snd Examples.trae_cn)) = Ok tt.
Proof.
  split.
  - destruct (@key_blocks_need_text_keys
                (Examples.all_hold Samples.null_key)
                (fst Examples.trae_cn) (snd Examples.trae_cn)
                Samples.null_key [Examples.master "table" "ItemTable"]
                [VText "chat.a"; VNull; VText "chat.b"]
                eq_refl eq_refl eq_refl eq_refl eq_refl eq_refl eq_refl)
      as [H _].
    destruct (H eq_refl) as [e [_ [_ Hcl]]]. exact Hcl.
  - destruct (@key_blocks_need_text_keys
                (Examples.all_hold Samples.late_null_key)
                (fst Examples.trae_cn) (snd Examples.trae_cn)
                Samples.late_null_key [Examples.master "table" "ItemTable"]
                (repeat (VText "settings") 30 ++ [VNull])
                eq_refl eq_refl eq_refl eq_refl eq_refl eq_refl eq_refl)
      as [_ H].
    destruct (H eq_refl (or_introl eq_refl)) as [rest [_ [_ Hs]]].
    destruct (Hs eq_refl) as [Ho _]. exact Ho.
Defined.

(** A NULL key inside the sample ends the candidate with an error after
    the key line; a NULL key beyond the thirtieth row goes unnoticed. *)
Example null_key_reports :
  stdout (trace (candidate (Examples.all_hold Samples.null_key)
                   Examples.trae_cn)) =
    [Header (fst Examples.trae_cn) (snd Examples.trae_cn);
     Tables ["ItemTable"];
     Keys "ItemTable" 3 [VText "chat.a"; VNull; VText "chat.b"];
     Error "'NoneType' object has no attribute 'lower'"] /\
  stdout (trace (candidate (Examples.all_hold Samples.late_null_key)
                   Examples.trae_cn)) =
    [Header (fst Examples.trae_cn) (snd Examples.trae_cn);
     Tables ["ItemTable"];
     Keys "ItemTable" 30 (repeat (VText "settings") 15)].
Proof. vm_compute. split; reflexivity. Qed.

(** ** The filter and the length of a key *)

Lemma lower_app (a b : string) :
  lower (a ++ b) = (lower a ++ lower b)%string.
Proof.
  induction a as [|x a IH]; [reflexivity|]. cbn [append lower].
  now rewrite IH.
Qed.

Lemma characters_app (a b : string) :
  characters (a ++ b) = characters a + characters b.
Proof.
  induction a as [|x a IH]; [reflexivity|]. cbn [append characters].
  rewrite IH. apply Nat.add_assoc.
Qed.

Lemma lower_char_keeps_continuation (x : ascii) :
  continuation_byte (lower_char x) = continuation_byte x.
Proof. destruct x as [[] [] [] [] [] [] [] []]; reflexivity. Qed.

Lemma characters_lower (s : string) : characters (lower s) = characters s.
Proof.
  induction s as [|x s IH]; [reflexivity|]. cbn [lower characters].
  now rewrite lower_char_keeps_continuation, IH.
Qed.

Lemma occurs_in_characters (needle hay : string) :
  occurs_in needle hay -> characters needle <= characters hay.
Proof.
  intros [pre [post ->]]. rewrite !characters_app.
  apply Nat.le_trans with (characters needle + characters post).
  - apply Nat.le_add_r.
  - apply Nat.le_add_l.
Qed.

(** X12: a flagged text key stays flagged when text is added before or
    after it, and a text key of fewer than four characters (of UTF-8, of
    any number of bytes each) is never flagged: the shortest needle,
    "chat", has four. *)
Theorem chat_filter_extension_and_short_keys :
  (forall pre key post : string,
      item_table_chat (VText key) = Ok true ->
      item_table_chat (VText (pre ++ key ++ post)) = Ok true /\
      cursor_disk_kv_chat (VText (pre ++ key ++ post)) = Ok true) /\
  (forall key : string,
      characters key < 4 ->
      item_table_chat (VText key) = Ok false /\
      cursor_disk_kv_chat (VText key) = Ok false).
Proof.
  split.
  - intros pre key post H.
    rewrite <- filters_agree_on_text. split; [|idtac].
    all: rewrite item_table_chat_text in *; injection H as H; f_equal;
      apply spec_chat_like_iff; apply spec_chat_like_iff in H;
      destruct H as [n [Hn Ho]]; exists n; (split; [assumption|]);
      apply occurs_in_trans with (lower key); [assumption|];
      exists (lower pre), (lower post); now rewrite !lower_app.
  - intros key Hlen. rewrite <- filters_agree_on_text.
    assert (H : item_table_chat (VText key) = Ok false).
    { rewrite item_table_chat_text. f_equal.
      destruct (_ || _ || _ || _) eqn:Hv; [|reflexivity].
      apply spec_chat_like_iff in Hv. destruct Hv as [n [Hn Ho]].
      apply occurs_in_characters in Ho. rewrite characters_lower in Ho.
      exfalso. apply (Nat.lt_irrefl 4).
      apply Nat.le_lt_trans with (characters key); [|assumption].
      apply Nat.le_trans with (characters n); [|assumption].
      cbn [chat_needles In] in Hn.
      destruct Hn as [<- | [<- | [<- | [<- | []]]]]; vm_compute;
        repeat constructor. }
    split; exact H.
Qed.

(** Two characters of three bytes each: six bytes, two characters, never
    flagged. *)
Example two_wide_characters :
  let key := String (ascii_of_nat 228) (String (ascii_of_nat 184)
             (String (ascii_of_nat 173) (String (ascii_of_nat 230)
             (String (ascii_of_nat 150) (String (ascii_of_nat 135) ""))))) in
  String.length key = 6 /\ characters key = 2 /\
  item_table_chat (VText key) = Ok false.
Proof. vm_compute. repeat split. Qed.
